(** * The account service of [user_management]

    A shallow embedding of [app/services/user_service.py] and
    [app/utils/nickname_gen.py].

    The service is a sequential layer over one table of user records.  The
    table is a list of rows; a record loaded through the session is
    identified by the position of its row, and [session.add] followed by
    [session.commit] writes the mutated record back to that row.  The
    collaborators the service imports from modules outside these two files
    (password hashing, token generation, settings, request schemas, the email
    sender) are the fields of the class [Collaborators]; random draws and the
    clock are explicit arguments.

    The position of a row is the handle of a loaded record and nothing
    more: the queries of the service carry no ordering, so the order of the
    list stands for whatever order the store answers in.

    Scope: [update] is not embedded (its payload is a dynamic set of columns
    fixed by a schema outside these files), and the store is taken to be
    available, so the database errors in the model are a violated uniqueness
    constraint on insertion and a statement the store refuses to run (a
    UUID compared with an integer, a text that is no label of the role
    enumeration). *)

From Stdlib Require Import ZArith String Ascii Lia.
From stdpp Require Import base option list strings numbers.

Local Open Scope string_scope.
Local Open Scope Z_scope.

(** ** Data model *)

(** Modelled from the spec: the role enumeration of [app.models.user_model],
    which the service imports; the spec lists ADMIN, AUTHENTICATED and
    ANONYMOUS. *)
Inductive UserRole : Type :=
  | ANONYMOUS
  | AUTHENTICATED
  | ADMIN.

#[global] Instance UserRole_eq_dec : EqDecision UserRole.
Proof. solve_decision. Defined.

(** The label a role is stored under, which [cast(User.role, String)]
    exposes to the text filters. *)
Definition role_name (r : UserRole) : string :=
  match r with
  | ANONYMOUS => "ANONYMOUS"
  | AUTHENTICATED => "AUTHENTICATED"
  | ADMIN => "ADMIN"
  end.

(** Modelled from the spec: the [User] row of [app.models.user_model].  The
    columns are those the service reads or writes.  Identifiers (UUIDs) and
    timestamps are integers. *)
Record User : Type := mkUser {
  id : Z;
  nickname : string;
  email : string;
  first_name : option string;
  last_name : option string;
  hashed_password : string;
  role : UserRole;
  status : option string;
  email_verified : bool;
  verification_token : option string;
  failed_login_attempts : Z;
  is_locked : bool;
  last_login_at : option Z;
  registration_date : Z
}.

#[global] Instance User_eq_dec : EqDecision User.
Proof. solve_decision. Defined.

(** Attribute assignments [user.field = value]. *)
Definition set_nickname (v : string) (u : User) : User :=
  mkUser (id u) v (email u) (first_name u) (last_name u) (hashed_password u)
    (role u) (status u) (email_verified u) (verification_token u)
    (failed_login_attempts u) (is_locked u) (last_login_at u)
    (registration_date u).

Definition set_hashed_password (v : string) (u : User) : User :=
  mkUser (id u) (nickname u) (email u) (first_name u) (last_name u) v
    (role u) (status u) (email_verified u) (verification_token u)
    (failed_login_attempts u) (is_locked u) (last_login_at u)
    (registration_date u).

Definition set_role (v : UserRole) (u : User) : User :=
  mkUser (id u) (nickname u) (email u) (first_name u) (last_name u)
    (hashed_password u) v (status u) (email_verified u)
    (verification_token u) (failed_login_attempts u) (is_locked u)
    (last_login_at u) (registration_date u).

Definition set_email_verified (v : bool) (u : User) : User :=
  mkUser (id u) (nickname u) (email u) (first_name u) (last_name u)
    (hashed_password u) (role u) (status u) v (verification_token u)
    (failed_login_attempts u) (is_locked u) (last_login_at u)
    (registration_date u).

Definition set_verification_token (v : option string) (u : User) : User :=
  mkUser (id u) (nickname u) (email u) (first_name u) (last_name u)
    (hashed_password u) (role u) (status u) (email_verified u) v
    (failed_login_attempts u) (is_locked u) (last_login_at u)
    (registration_date u).

Definition set_failed_login_attempts (v : Z) (u : User) : User :=
  mkUser (id u) (nickname u) (email u) (first_name u) (last_name u)
    (hashed_password u) (role u) (status u) (email_verified u)
    (verification_token u) v (is_locked u) (last_login_at u)
    (registration_date u).

Definition set_is_locked (v : bool) (u : User) : User :=
  mkUser (id u) (nickname u) (email u) (first_name u) (last_name u)
    (hashed_password u) (role u) (status u) (email_verified u)
    (verification_token u) (failed_login_attempts u) v (last_login_at u)
    (registration_date u).

Definition set_last_login_at (v : option Z) (u : User) : User :=
  mkUser (id u) (nickname u) (email u) (first_name u) (last_name u)
    (hashed_password u) (role u) (status u) (email_verified u)
    (verification_token u) (failed_login_attempts u) (is_locked u) v
    (registration_date u).

(** The user table; the order of the list stands for the order in which the
    store answers a query. *)
Abbreviation store := (list User).

(** Modelled from the spec: the validated registration payload produced by
    the [UserCreate] schema of [app.schemas.user_schemas]: the email, the
    clear-text password and the optional profile fields. *)
Record UserCreateData : Type := mkUserCreateData {
  uc_email : string;
  uc_password : string;
  uc_first_name : option string;
  uc_last_name : option string
}.

(** The collaborators of the service that live outside the two modelled
    files. *)
Class Collaborators : Type := {
  (** [app.utils.security.hash_password] *)
  hash_password : string → string;
  (** [app.utils.security.verify_password plain hashed] *)
  verify_password : string → string → bool;
  (** [app.utils.security.generate_verification_token], as a function of the
      random draw it makes *)
  generate_verification_token : Z → string;
  (** [get_settings().max_login_attempts] *)
  max_login_attempts : Z;
  (** the [UserCreate] schema applied to the request dictionary, then
      [model_dump]; [None] is a validation error *)
  UserCreate : list (string * string) → option UserCreateData;
  (** [UserLogin(email=..., password=...)]; [false] is a [ValueError] *)
  UserLogin : string → string → bool;
  (** [email_service.send_verification_email]; [false] is a raised exception *)
  send_verification_email : User → bool;
  (** the builtin [int(search)]; [None] is a [ValueError] *)
  int : string → option Z
}.

(** ** Text helpers *)

(** The text [sub] occurs in [s], character for character. *)
Fixpoint occurs_in (sub s : string) : bool :=
  String.prefix sub s ||
  match s with
  | EmptyString => false
  | String _ s' => occurs_in sub s'
  end.

(** The store's [LIKE]: in the pattern, [%] stands for any run of
    characters, [_] for any one character, and a backslash makes the
    character after it literal.  A pattern that ends in a lone backslash is
    refused by the store; the patterns built below all end in [%], so that
    case does not arise and is given [false]. *)
Fixpoint like (pattern s : string) : bool :=
  match pattern with
  | EmptyString =>
      match s with
      | EmptyString => true
      | String _ _ => false
      end
  | String "%" pattern' =>
      (fix from (s : string) : bool :=
         like pattern' s ||
         match s with
         | EmptyString => false
         | String _ s' => from s'
         end) s
  | String "_" pattern' =>
      match s with
      | EmptyString => false
      | String _ s' => like pattern' s'
      end
  | String "\" EmptyString => false
  | String "\" (String c pattern') =>
      match s with
      | EmptyString => false
      | String c' s' => Ascii.eqb c c' && like pattern' s'
      end
  | String c pattern' =>
      match s with
      | EmptyString => false
      | String c' s' => Ascii.eqb c c' && like pattern' s'
      end
  end%char.

(** The column operator [contains]: [column LIKE '%' || value || '%'], the
    value being passed as it is, with its own [%], [_] and backslashes. *)
Definition contains (value s : string) : bool :=
  like ("%" ++ value ++ "%") s.

(** Every character of [s] satisfies [p]. *)
Fixpoint string_forall (p : ascii → bool) (s : string) : bool :=
  match s with
  | EmptyString => true
  | String c s' => p c && string_forall p s'
  end.

(** The characters [0-9a-f]. *)
Definition is_lower_hex (c : ascii) : bool :=
  let n := nat_of_ascii c in
  ((48 <=? n)%nat && (n <=? 57)%nat) || ((97 <=? n)%nat && (n <=? 102)%nat).

(** ** [app/utils/nickname_gen.py] *)

Module nickname_gen.

(** The random draws of one call: the two draws of [random.choice] and the
    sixteen random bytes of [uuid.uuid4], as an integer. *)
Record Draws : Type := mkDraws {
  adjective_draw : nat;
  animal_draw : nat;
  uuid_draw : Z
}.

Definition adjectives : list string :=
  ["clever"; "jolly"; "brave"; "sly"; "gentle"].

Definition animals : list string :=
  ["panda"; "fox"; "raccoon"; "koala"; "lion"].

(** [random.choice(seq)] is [seq[k]] for an index [k] below [len(seq)]; a
    draw [r] stands for the index [r mod len(seq)]. *)
Definition choice (r : nat) (seq : list string) : string :=
  nth (r mod length seq)%nat seq "".

(** [uuid.uuid4()]: 128 random bits with the variant and version fields
    overwritten, as [UUID.__init__] does for [version=4]. *)
Definition uuid4 (r : Z) : Z :=
  let i := r mod 2 ^ 128 in
  let i := Z.ldiff i (Z.shiftl 0xc000 48) in
  let i := Z.lor i (Z.shiftl 0x8000 48) in
  let i := Z.ldiff i (Z.shiftl 0xf000 64) in
  Z.lor i (Z.shiftl 4 76).

Definition hex_digit (d : Z) : ascii :=
  match d with
  | 0 => "0" | 1 => "1" | 2 => "2" | 3 => "3" | 4 => "4" | 5 => "5"
  | 6 => "6" | 7 => "7" | 8 => "8" | 9 => "9" | 10 => "a" | 11 => "b"
  | 12 => "c" | 13 => "d" | 14 => "e" | _ => "f"
  end%char.

(** The [k] lowest hexadecimal digits of [n], most significant first, in
    front of [acc]. *)
Fixpoint hex_digits (k : nat) (n : Z) (acc : string) : string :=
  match k with
  | O => acc
  | S k' => hex_digits k' (n / 16) (String (hex_digit (n mod 16)) acc)
  end.

(** [UUID.hex]: the integer printed with ['%032x']. *)
Definition hex (u : Z) : string := hex_digits 32 u "".

Definition generate_nickname (d : Draws) : string :=
  let unique_id := substring 0 6 (hex (uuid4 (uuid_draw d))) in
  choice (adjective_draw d) adjectives ++ "_" ++
  choice (animal_draw d) animals ++ "_" ++ unique_id.

End nickname_gen.

(** ** [app/services/user_service.py] *)

(** A [where] condition on rows; [None] is a comparison the store refuses
    to run, which fails the statement it is part of. *)
Abbreviation Clause := (option (User → bool)).

Definition refused (c : Clause) : bool :=
  match c with
  | None => true
  | Some _ => false
  end.

Definition holds (c : Clause) (u : User) : bool :=
  match c with
  | Some f => f u
  | None => false
  end.

(** A [select] statement under construction: the accumulated [where]
    clauses, the offset and the limit. *)
Record Query : Type := mkQuery {
  q_where : list Clause;
  q_offset : nat;
  q_limit : option nat
}.

Definition select_User : Query := mkQuery [] 0%nat None.

Definition offset (n : nat) (q : Query) : Query :=
  mkQuery (q_where q) n (q_limit q).

Definition limit (n : nat) (q : Query) : Query :=
  mkQuery (q_where q) (q_offset q) (Some n).

Definition where_ (c : Clause) (q : Query) : Query :=
  mkQuery (q_where q ++ [c]) (q_offset q) (q_limit q).

(** [or_(c1, ..., cn)] *)
Definition or_ (cs : list Clause) : Clause :=
  if existsb refused cs then None
  else Some (λ u, existsb (λ c, holds c u) cs).

(** [User.id == n] for an integer [n]: the key column holds UUIDs and the
    store has no equality between a UUID and an integer. *)
Definition id_eq_int (n : Z) : Clause := None.

(** The role a label names. *)
Definition role_of_name (label : string) : option UserRole :=
  if bool_decide (label = role_name ANONYMOUS) then Some ANONYMOUS
  else if bool_decide (label = role_name AUTHENTICATED) then Some AUTHENTICATED
  else if bool_decide (label = role_name ADMIN) then Some ADMIN
  else None.

(** [User.role == value] for a text [value]: the store converts the text to
    the enumeration and refuses a text that is not one of its labels. *)
Definition role_eq (value : string) : Clause :=
  match role_of_name value with
  | Some r => Some (λ u, bool_decide (role u = r))
  | None => None
  end.

(** [session.execute(query)]: the rows satisfying every clause, in the order
    of the table, then the offset and the limit; [None] is the
    [SQLAlchemyError] of a statement the store refuses.  The statements
    carry no ordering, so the order of the rows is the store's choice; the
    table stands for that choice. *)
Definition selected (q : Query) (st : store) : option (list User) :=
  if existsb refused (q_where q) then None
  else Some (List.filter (λ u, forallb (λ c, holds c u) (q_where q)) st).

Definition execute (q : Query) (st : store) : option (list User) :=
  match selected q st with
  | Some rows =>
      let rows := drop (q_offset q) rows in
      Some (match q_limit q with
            | Some n => take n rows
            | None => rows
            end)
  | None => None
  end.

(** [if value:] on an optional text argument: [None] and the empty text skip
    the clause. *)
Definition if_text (value : option string) (f : string → Query → Query)
    (q : Query) : Query :=
  match value with
  | Some (String _ _ as s) => f s q
  | _ => q
  end.

(** [if value:] on an optional timestamp: only [None] skips the clause. *)
Definition if_date (value : option Z) (f : Z → Query → Query)
    (q : Query) : Query :=
  match value with
  | Some d => f d q
  | None => q
  end.

(** A nullable text column against a value: a NULL cell satisfies neither
    comparison. *)
Definition cell_contains (cell : option string) (value : string) : bool :=
  match cell with
  | Some s => contains value s
  | None => false
  end.

Definition cell_eq (cell : option string) (value : string) : bool :=
  match cell with
  | Some s => bool_decide (s = value)
  | None => false
  end.

(** The random draws and the clock reading consumed by one [create]: the
    primary key and the registration time the row receives on insertion, the
    draws of the nickname generator and the draw of the token generator. *)
Record CreateInput : Type := mkCreateInput {
  new_id : Z;
  now : Z;
  nickname_draws : nickname_gen.Draws;
  token_draw : Z
}.

(** Modelled from the spec: the constructor of the missing [User] model applied
    to the validated payload, with its column defaults: unverified, no token, counter 0,
    unlocked, never logged in. *)
Definition User_new (v : UserCreateData) (hashed : string)
    (uid registered : Z) : User :=
  mkUser uid "" (uc_email v) (uc_first_name v) (uc_last_name v) hashed
    ANONYMOUS None false None 0 false None registered.

(** [session.add(new_user); session.commit()] for a new row: the primary key
    and the unique columns email and nickname reject a duplicate, which
    surfaces as an [SQLAlchemyError] ([None]). *)
Definition insert_row (u : User) (st : store) : option store :=
  if existsb (λ x, bool_decide (id x = id u) || bool_decide (email x = email u)
                   || bool_decide (nickname x = nickname u)) st
  then None
  else Some (st ++ [u])%list.

Module UserService.
Section Service.
Context {Co : Collaborators}.

(** [_fetch_user]: the first row matching the filter, with its position. *)
Definition _fetch_user (P : User → Prop) `{∀ u, Decision (P u)}
    (st : store) : option (nat * User) :=
  list_find P st.

Definition get_by_id (st : store) (user_id : Z) : option (nat * User) :=
  _fetch_user (λ u, id u = user_id) st.

Definition get_by_nickname (st : store) (nickname' : string)
    : option (nat * User) :=
  _fetch_user (λ u, nickname u = nickname') st.

Definition get_by_email (st : store) (email' : string)
    : option (nat * User) :=
  _fetch_user (λ u, email u = email') st.

(** [None] is the exception [session.execute] raises, which [count] lets
    through. *)
Definition count (st : store) (search first_name' last_name' email'
    role' status' : option string) (registration_date' : option Z)
    : option Z :=
  let query := select_User in
  let query :=
    if_text search (λ search query,
      match int search with
      | Some search_int =>
          where_ (or_ [ id_eq_int search_int;
                        Some (λ u, contains search (email u));
                        Some (λ u, contains search (role_name (role u)));
                        Some (λ u, cell_contains (first_name u) search);
                        Some (λ u, cell_contains (last_name u) search) ])
            query
      | None =>
          where_ (or_ [ Some (λ u, contains search (email u));
                        Some (λ u, contains search (role_name (role u)));
                        Some (λ u, cell_contains (first_name u) search);
                        Some (λ u, cell_contains (last_name u) search) ])
            query
      end) query in
  let query := if_text first_name' (λ v,
    where_ (Some (λ u, cell_eq (first_name u) v))) query in
  let query := if_text last_name' (λ v,
    where_ (Some (λ u, cell_eq (last_name u) v))) query in
  let query := if_text email' (λ v,
    where_ (Some (λ u, bool_decide (email u = v)))) query in
  let query := if_text role' (λ v, where_ (role_eq v)) query in
  let query := if_text status' (λ v,
    where_ (Some (λ u, cell_eq (status u) v))) query in
  let query := if_date registration_date' (λ d,
    where_ (Some (λ u, d <=? registration_date u))) query in
  match execute query st with
  | Some rows => Some (Z.of_nat (length rows))
  | None => None
  end.

Definition create (st : store) (user_data : list (string * string))
    (inp : CreateInput) : store * option User :=
  match UserCreate user_data with
  | None => (st, None)
  | Some validated_data =>
      match get_by_email st (uc_email validated_data) with
      | Some _ => (st, None)
      | None =>
          let hashed := hash_password (uc_password validated_data) in
          let new_user :=
            User_new validated_data hashed (new_id inp) (now inp) in
          let new_user :=
            set_nickname
              (nickname_gen.generate_nickname (nickname_draws inp))
              new_user in
          match count st None None None None None None None with
          | None => (st, None)
          | Some user_count =>
              let new_user :=
                set_role (if user_count =? 0 then ADMIN else ANONYMOUS)
                  new_user in
              let new_user :=
                if bool_decide (role new_user = ADMIN)
                then set_email_verified true new_user
                else set_verification_token
                       (Some (generate_verification_token (token_draw inp)))
                       new_user in
              match insert_row new_user st with
              | None => (st, None)
              | Some st' =>
                  if send_verification_email new_user
                  then (st', Some new_user)
                  else (st', None)
              end
          end
      end
  end.

(** [_execute_query]: a statement the store refuses is rolled back and
    answered with [None]. *)
Definition _execute_query (q : Query) (st : store) : option (list User) :=
  execute q st.

Definition list_users (st : store) (skip limit' : nat)
    (first_name' last_name' email' role' status' : option string)
    (registration_date' : option Z) : list User :=
  let query := limit limit' (offset skip select_User) in
  let query := if_text first_name' (λ v,
    where_ (Some (λ u, cell_contains (first_name u) v))) query in
  let query := if_text last_name' (λ v,
    where_ (Some (λ u, cell_contains (last_name u) v))) query in
  let query := if_text email' (λ v,
    where_ (Some (λ u, contains v (email u)))) query in
  let query := if_text role' (λ v,
    where_ (Some (λ u, contains v (role_name (role u))))) query in
  let query := if_text status' (λ v,
    where_ (Some (λ u, cell_eq (status u) v))) query in
  let query := if_date registration_date' (λ d,
    where_ (Some (λ u, d <=? registration_date u))) query in
  match _execute_query query st with
  | Some result => result
  | None => []
  end.

Definition register_user := create.

(** [clock] is the reading of [datetime.now(timezone.utc)]. *)
Definition login_user (st : store) (email' password : string) (clock : Z)
    : store * option User :=
  if negb (UserLogin email' password) then (st, None)
  else
    match get_by_email st email' with
    | Some (i, user) =>
        if negb (email_verified user) then (st, None)
        else if is_locked user then (st, None)
        else if verify_password password (hashed_password user) then
          let user := set_failed_login_attempts 0 user in
          let user := set_last_login_at (Some clock) user in
          (<[i := user]> st, Some user)
        else
          let user :=
            set_failed_login_attempts (failed_login_attempts user + 1)
              user in
          let user :=
            if max_login_attempts <=? failed_login_attempts user
            then set_is_locked true user
            else user in
          (<[i := user]> st, None)
    | None => (st, None)
    end.

Definition is_account_locked (st : store) (email' : string) : bool :=
  match get_by_email st email' with
  | Some (_, user) => is_locked user
  | None => false
  end.

Definition reset_password (st : store) (user_id : Z)
    (new_password : string) : store * bool :=
  let hashed_password' := hash_password new_password in
  match get_by_id st user_id with
  | Some (i, user) =>
      let user := set_hashed_password hashed_password' user in
      let user := set_failed_login_attempts 0 user in
      let user := set_is_locked false user in
      (<[i := user]> st, true)
  | None => (st, false)
  end.

Definition verify_email_with_token (st : store) (user_id : Z)
    (token : string) : store * bool :=
  match get_by_id st user_id with
  | None => (st, false)
  | Some (i, user) =>
      if bool_decide (verification_token user ≠ Some token)
      then (st, false)
      else
        let user := set_email_verified true user in
        let user := set_verification_token None user in
        let user := set_role AUTHENTICATED user in
        (<[i := user]> st, true)
  end.

Definition unlock_user_account (st : store) (user_id : Z)
    : store * bool :=
  match get_by_id st user_id with
  | Some (i, user) =>
      if is_locked user then
        let user := set_is_locked false user in
        let user := set_failed_login_attempts 0 user in
        (<[i := user]> st, true)
      else (st, false)
  | None => (st, false)
  end.

(** [delete]: the row found for the id is removed. *)
Definition delete (st : store) (user_id : Z) : store * bool :=
  match get_by_id st user_id with
  | None => (st, false)
  | Some (i, user) => (base.delete i st, true)
  end.

End Service.
End UserService.

(** ** Sample collaborators and stores, for running the model *)

Module Sample.

Fixpoint lookup_key (k : string) (d : list (string * string))
    : option string :=
  match d with
  | [] => None
  | (k', v) :: d' => if bool_decide (k' = k) then Some v else lookup_key k d'
  end.

(** Decimal digits only; enough to exercise the [search] filter. *)
Fixpoint digits_value (s : string) (acc : Z) : option Z :=
  match s with
  | EmptyString => Some acc
  | String c s' =>
      let n := Z.of_nat (nat_of_ascii c) in
      if (48 <=? n) && (n <=? 57) then digits_value s' (10 * acc + (n - 48))
      else None
  end.

(** The text after the first [c] of [s]. *)
Fixpoint after (c : ascii) (s : string) : option string :=
  match s with
  | EmptyString => None
  | String c' s' => if Ascii.eqb c c' then Some s' else after c s'
  end.

Fixpoint ends_with (c : ascii) (s : string) : bool :=
  match s with
  | EmptyString => false
  | String c' EmptyString => Ascii.eqb c c'
  | String _ s' => ends_with c s'
  end.

(** A stand-in for the email check of the schemas: a non-empty local part,
    one [@], and a domain of at least two non-empty labels. *)
Definition email_shaped (e : string) : bool :=
  match after "@" e with
  | Some domain =>
      negb (String.prefix "@" e) && negb (occurs_in "@" domain) &&
      negb (occurs_in " " e) &&
      occurs_in "." domain && negb (String.prefix "." domain) &&
      negb (occurs_in ".." domain) && negb (ends_with "." domain)
  | None => false
  end.

Definition collaborators : Collaborators := {|
  hash_password p := "hash:" ++ p;
  verify_password p h := bool_decide (h = "hash:" ++ p);
  generate_verification_token r := "tok-" ++ nickname_gen.hex r;
  max_login_attempts := 3;
  UserCreate d :=
    match lookup_key "email" d, lookup_key "password" d with
    | Some e, Some p =>
        if email_shaped e
        then Some (mkUserCreateData e p (lookup_key "first_name" d)
                     (lookup_key "last_name" d))
        else None
    | _, _ => None
    end;
  UserLogin e _ := email_shaped e;
  send_verification_email _ := true;
  int s := match s with EmptyString => None | _ => digits_value s 0 end
|}.

(** The same collaborators with an email sender that always raises. *)
Definition failing_sender : Collaborators := {|
  hash_password := @hash_password collaborators;
  verify_password := @verify_password collaborators;
  generate_verification_token := @generate_verification_token collaborators;
  max_login_attempts := @max_login_attempts collaborators;
  UserCreate := @UserCreate collaborators;
  UserLogin := @UserLogin collaborators;
  send_verification_email _ := false;
  int := @int collaborators
|}.

Definition alice : User :=
  mkUser 1 "clever_fox_0a1b2c" "alice@example.com" (Some "Alice")
    (Some "Smith") "hash:alicepw" ADMIN (Some "active") true None 0 false
    None 100.

Definition bob : User :=
  mkUser 2 "sly_panda_ffee00" "bob@example.com" (Some "Bob") (Some "Jones")
    "hash:bobpw" ANONYMOUS (Some "active") false (Some "tok-bob") 0 false
    None 200.

Definition carol : User :=
  mkUser 3 "brave_lion_123456" "carol@example.com" (Some "Carol") None
    "hash:carolpw" AUTHENTICATED (Some "active") true None 2 false
    (Some 250) 300.

Definition dave : User :=
  mkUser 4 "jolly_koala_abcdef" "dave@example.com" None None
    "hash:davepw" AUTHENTICATED None true None 3 true None 400.

Definition users : store := [alice; bob; carol; dave].

(** The record a registration of erin on [users] produces with [draws]. *)
Definition erin : User :=
  mkUser 5 "brave_koala_012345" "erin@example.com" None None "hash:pw"
    ANONYMOUS None false (Some "tok-0000000000000000000000000000004d") 0
    false None 500.

(** Registration payloads and draws for erin and fay, and the records they
    yield: erin as the first account of an empty table, fay after her
    verification. *)
Definition erin_data : list (string * string) :=
  [("email", "erin@example.com"); ("password", "pw")].

Definition erin_admin : User :=
  mkUser 5 "brave_koala_012345" "erin@example.com" None None "hash:pw"
    ADMIN None true None 0 false None 500.

Definition fay_data : list (string * string) :=
  [("email", "fay@example.com"); ("password", "pw2")].

Definition fay_draws : CreateInput :=
  mkCreateInput 6 600 (nickname_gen.mkDraws 1 1 5) 78.

Definition fay_verified : User :=
  mkUser 6 "jolly_fox_000000" "fay@example.com" None None "hash:pw2"
    AUTHENTICATED None true None 0 false None 600.

Definition draws : CreateInput :=
  mkCreateInput 5 500
    (nickname_gen.mkDraws 7 3 0x0123456789abcdef0123456789abcdef) 77.

End Sample.

(** ** Vocabulary of the properties *)

(** The uniqueness constraint on the email column. *)
Definition unique_emails (st : store) : Prop := NoDup (email <$> st).

(** The requests that act on the lockout state of accounts, and the table
    after a sequence of them. *)
Inductive Request : Type :=
  | Create (user_data : list (string * string)) (inp : CreateInput)
  | Login (email' password : string) (clock : Z)
  | ResetPassword (user_id : Z) (new_password : string)
  | VerifyEmail (user_id : Z) (token : string)
  | Unlock (user_id : Z).

Definition serve {Co : Collaborators} (st : store) (r : Request) : store :=
  match r with
  | Create user_data inp => (UserService.create st user_data inp).1
  | Login email' password clock =>
      (UserService.login_user st email' password clock).1
  | ResetPassword user_id new_password =>
      (UserService.reset_password st user_id new_password).1
  | VerifyEmail user_id token =>
      (UserService.verify_email_with_token st user_id token).1
  | Unlock user_id => (UserService.unlock_user_account st user_id).1
  end.

Definition serve_all {Co : Collaborators} (st : store) (rs : list Request)
    : store :=
  foldl serve st rs.

(** The lockout invariant of one account: the counter is within the maximum
    and an unlocked account is strictly below it. *)
Definition within_limit {Co : Collaborators} (u : User) : Prop :=
  failed_login_attempts u ≤ max_login_attempts ∧
  (is_locked u = false → failed_login_attempts u < max_login_attempts).

(** An optional text filter that [if value:] skips: absent or empty. *)
Definition no_text (value : option string) : bool :=
  match value with
  | Some (String _ _) => false
  | _ => true
  end.

(** The clause an optional text filter contributes to a statement. *)
Definition text_clause (value : option string) (c : string → Clause)
    : list Clause :=
  match value with
  | Some (String _ _ as s) => [c s]
  | _ => []
  end.

Definition date_clause (value : option Z) (c : Z → Clause) : list Clause :=
  match value with
  | Some d => [c d]
  | None => []
  end.

(** A row passes a list of clauses. *)
Definition passes (cs : list Clause) (u : User) : bool :=
  forallb (λ c, holds c u) cs.

(** A text of printable ASCII characters other than the three that [LIKE]
    treats specially. *)
Definition plain_text (value : string) : bool :=
  string_forall
    (λ c, let n := nat_of_ascii c in
          (32 <=? n)%nat && (n <=? 126)%nat &&
          negb (Ascii.eqb c "%" || Ascii.eqb c "_" || Ascii.eqb c "\")%char)
    value.

(** An optional text filter is met by a cell: when a non-empty value is
    given, it is plain text and occurs in the cell. *)
Definition meets_text (value : option string) (cell : option string)
    : Prop :=
  ∀ v, value = Some v → v ≠ "" →
       plain_text v = true ∧ ∃ s, cell = Some s ∧ occurs_in v s = true.

(** A text without the characters [LIKE] treats specially. *)
Definition wildcard_free (value : string) : bool :=
  string_forall
    (λ c, negb (Ascii.eqb c "%" || Ascii.eqb c "_" || Ascii.eqb c "\")%char)
    value.

(** The uniqueness constraint on the primary key. *)
Definition unique_ids (st : store) : Prop := NoDup (id <$> st).

(** The columns that identify an account. *)
Definition identity (u : User) : Z * string * string * Z :=
  (id u, email u, nickname u, registration_date u).

(** A run of login attempts against one email: the passwords tried, each
    with the clock reading of its attempt. *)
Definition attempts (email' : string) (tries : list (string * Z))
    : list Request :=
  (λ t, Login email' t.1 t.2) <$> tries.

(** The three states an account at row [i] can be in with respect to
    registration and verification. *)
Definition first_admin (i : nat) (u : User) : Prop :=
  i = 0%nat ∧ role u = ADMIN ∧ email_verified u = true ∧
  verification_token u = None.

Definition pending (i : nat) (u : User) : Prop :=
  i ≠ 0%nat ∧ role u = ANONYMOUS ∧ email_verified u = false ∧
  ∃ token, verification_token u = Some token.

Definition verified (i : nat) (u : User) : Prop :=
  i ≠ 0%nat ∧ role u = AUTHENTICATED ∧ email_verified u = true ∧
  verification_token u = None.

(** The characters [a-z], [0-9] and the underscore. *)
Definition is_url_safe (c : ascii) : bool :=
  let n := nat_of_ascii c in
  ((97 <=? n)%nat && (n <=? 122)%nat) || ((48 <=? n)%nat && (n <=? 57)%nat)
  || (n =? 95)%nat.

(** The clauses the two statements accumulate, in the order they are
    added. *)
Definition list_clauses (first_name' last_name' email' role' status'
    : option string) (registration_date' : option Z) : list Clause :=
  text_clause first_name' (λ v, Some (λ u, cell_contains (first_name u) v)) ++
  text_clause last_name' (λ v, Some (λ u, cell_contains (last_name u) v)) ++
  text_clause email' (λ v, Some (λ u, contains v (email u))) ++
  text_clause role' (λ v, Some (λ u, contains v (role_name (role u)))) ++
  text_clause status' (λ v, Some (λ u, cell_eq (status u) v)) ++
  date_clause registration_date'
    (λ d, Some (λ u, d <=? registration_date u)).

Definition search_clause {Co : Collaborators} (search : string) : Clause :=
  match int search with
  | Some search_int =>
      or_ [ id_eq_int search_int;
            Some (λ u, contains search (email u));
            Some (λ u, contains search (role_name (role u)));
            Some (λ u, cell_contains (first_name u) search);
            Some (λ u, cell_contains (last_name u) search) ]
  | None =>
      or_ [ Some (λ u, contains search (email u));
            Some (λ u, contains search (role_name (role u)));
            Some (λ u, cell_contains (first_name u) search);
            Some (λ u, cell_contains (last_name u) search) ]
  end.

Definition count_clauses {Co : Collaborators} (search first_name' last_name'
    email' role' status' : option string) (registration_date' : option Z)
    : list Clause :=
  text_clause search search_clause ++
  text_clause first_name' (λ v, Some (λ u, cell_eq (first_name u) v)) ++
  text_clause last_name' (λ v, Some (λ u, cell_eq (last_name u) v)) ++
  text_clause email' (λ v, Some (λ u, bool_decide (email u = v))) ++
  text_clause role' role_eq ++
  text_clause status' (λ v, Some (λ u, cell_eq (status u) v)) ++
  date_clause registration_date'
    (λ d, Some (λ u, d <=? registration_date u)).

(** The three states of an account with respect to registration and
    verification, whatever its row. *)
Definition admin_state (u : User) : Prop :=
  role u = ADMIN ∧ email_verified u = true ∧ verification_token u = None.

Definition pending_state (u : User) : Prop :=
  role u = ANONYMOUS ∧ email_verified u = false ∧
  ∃ token, verification_token u = Some token.

Definition verified_state (u : User) : Prop :=
  role u = AUTHENTICATED ∧ email_verified u = true ∧
  verification_token u = None.

Definition is_admin (u : User) : bool := bool_decide (role u = ADMIN).

(** * Properties *)

Import UserService.

(** ** The table *)

Section Table.
Context (P : User → Prop) `{!∀ u, Decision (P u)}.

(** Writing a record that still matches the filter back to its row leaves
    it the first match. *)
Lemma fetch_after_write (st : store) (i : nat) (u u' : User) :
  _fetch_user P st = Some (i, u) → P u' →
  _fetch_user P (<[i := u']> st) = Some (i, u').
Proof.
  unfold _fetch_user. intros Hf Hu'.
  apply list_find_Some in Hf as (Hi & _ & Hleast).
  apply list_find_insert_Some. right. left.
  split_and!; eauto using lookup_lt_Some.
Qed.

Lemma fetch_lookup (st : store) (i : nat) (u : User) :
  _fetch_user P st = Some (i, u) → st !! i = Some u ∧ P u.
Proof. unfold _fetch_user. intros (? & ? & _)%list_find_Some. done. Qed.

Lemma fetch_None (st : store) :
  _fetch_user P st = None ↔ ∀ u, u ∈ st → ¬ P u.
Proof.
  unfold _fetch_user. by rewrite list_find_None, list.Forall_forall.
Qed.
End Table.

Lemma get_by_email_stored (st : store) (u : User) :
  unique_emails st → u ∈ st → ∃ i, get_by_email st (email u) = Some (i, u).
Proof.
  intros Hnd (i & Hi)%list_elem_of_lookup. exists i.
  apply list_find_Some. split_and!; [done..|].
  intros j y Hj Hlt Heq.
  assert (j = i) as ->; [|lia].
  eapply NoDup_lookup; [exact Hnd| |].
  - rewrite list_lookup_fmap, Hj. simpl. by rewrite Heq.
  - by rewrite list_lookup_fmap, Hi.
Qed.

Lemma write_changes (st : store) (i : nat) (u u' : User) :
  st !! i = Some u → u' ≠ u → <[i := u']> st ≠ st.
Proof.
  intros Hi Hne Heq.
  assert (st !! i = Some u') as Hi'.
  { rewrite <- Heq at 1. apply list_lookup_insert_eq.
    by eapply lookup_lt_Some. }
  congruence.
Qed.

(** ** Login and lockout *)

Section Login.
Context {Co : Collaborators}.

(** The three early exits of [login_user] that follow the lookup. *)
Lemma login_user_rejected (st : store) (email' password : string)
    (clock : Z) :
  (get_by_email st email' = None ∨
   ∃ i user, get_by_email st email' = Some (i, user) ∧
             (email_verified user = false ∨ is_locked user = true)) →
  login_user st email' password clock = (st, None).
Proof.
  unfold login_user. intros [-> | (i & user & -> & Hu)].
  - by destruct (UserLogin _ _).
  - destruct (UserLogin _ _); simpl; [|done].
    destruct Hu as [-> | ->]; simpl; [done|].
    by destruct (email_verified user).
Qed.

(** The two branches behind the checks, with the record they write. *)
Lemma login_user_accepts (st : store) (email' password : string)
    (clock : Z) (i : nat) (user : User) :
  UserLogin email' password = true →
  get_by_email st email' = Some (i, user) →
  email_verified user = true →
  is_locked user = false →
  verify_password password (hashed_password user) = true →
  login_user st email' password clock =
    (<[i := set_last_login_at (Some clock)
              (set_failed_login_attempts 0 user)]> st,
     Some (set_last_login_at (Some clock)
             (set_failed_login_attempts 0 user))).
Proof.
  intros Hvalid Hget Hver Hlock Hpw.
  unfold login_user. by rewrite Hvalid, Hget, Hver, Hlock, Hpw.
Qed.

Lemma login_user_wrong_password (st : store) (email' password : string)
    (clock : Z) (i : nat) (user : User) :
  UserLogin email' password = true →
  get_by_email st email' = Some (i, user) →
  email_verified user = true →
  is_locked user = false →
  verify_password password (hashed_password user) = false →
  login_user st email' password clock =
    (<[i := let user' :=
              set_failed_login_attempts (failed_login_attempts user + 1)
                user in
            if max_login_attempts <=? failed_login_attempts user'
            then set_is_locked true user' else user']> st,
     None).
Proof.
  intros Hvalid Hget Hver Hlock Hpw.
  unfold login_user. by rewrite Hvalid, Hget, Hver, Hlock, Hpw.
Qed.

(** C1: on a known, verified, unlocked account a wrong password moves the
    failed-login counter from [c] to [c + 1] and sets the locked flag
    exactly when [c + 1] has reached the configured maximum (for a counter
    below the maximum: exactly when [c + 1] equals it); a correct password
    resets the counter to 0 and leaves the account unlocked. *)
Theorem login_user_counter (st : store) (email' password : string)
    (clock : Z) (i : nat) (user : User) :
  UserLogin email' password = true →
  get_by_email st email' = Some (i, user) →
  email_verified user = true →
  is_locked user = false →
  ∃ user',
    login_user st email' password clock =
      (<[i := user']> st,
       if verify_password password (hashed_password user)
       then Some user' else None) ∧
    get_by_email (<[i := user']> st) email' = Some (i, user') ∧
    if verify_password password (hashed_password user)
    then failed_login_attempts user' = 0 ∧ is_locked user' = false
    else failed_login_attempts user' = failed_login_attempts user + 1 ∧
         (is_locked user' = true ↔
            max_login_attempts ≤ failed_login_attempts user + 1) ∧
         (failed_login_attempts user < max_login_attempts →
            (is_locked user' = true ↔
               failed_login_attempts user + 1 = max_login_attempts)).
Proof.
  intros Hvalid Hget Hver Hlock.
  pose proof (fetch_lookup _ _ _ _ Hget) as [_ Hmail].
  destruct (verify_password password (hashed_password user)) eqn:Hpw.
  - eexists. split; [by apply login_user_accepts|]. split; [|done].
    by eapply (fetch_after_write (λ u, email u = email')).
  - eexists. split; [by apply login_user_wrong_password|]. split.
    { eapply (fetch_after_write (λ u, email u = email')); [done|].
      simpl. by destruct (_ <=? _). }
    simpl.
    destruct (Z.leb_spec max_login_attempts (failed_login_attempts user + 1))
      as [Hle | Hlt]; simpl.
    + split_and!; [done| |]; intros; split; auto with lia.
    + rewrite Hlock. split_and!; [done| |]; intros; split; (done || lia).
Qed.

(** C4: a stored account that is locked or not email-verified gets no
    session from [login_user], whatever the password. *)
Theorem login_user_locked_or_unverified (st : store) (user : User)
    (password : string) (clock : Z) :
  unique_emails st → user ∈ st →
  is_locked user = true ∨ email_verified user = false →
  (login_user st (email user) password clock).2 = None.
Proof.
  intros Hnd Hin Hu.
  destruct (get_by_email_stored st user Hnd Hin) as [i Hget].
  rewrite login_user_rejected; [done|].
  right. exists i, user. split; [done|]. tauto.
Qed.

(** C9: a login that fails on an unknown email, an unverified account or
    a locked account returns the table untouched; among the failing logins
    the table changes exactly in the wrong-password branch on a verified,
    unlocked account. *)
Theorem login_user_failure_writes (st : store) (email' password : string)
    (clock : Z) :
  (login_user st email' password clock).2 = None →
  ((get_by_email st email' = None ∨
    ∃ i user, get_by_email st email' = Some (i, user) ∧
              (email_verified user = false ∨ is_locked user = true)) →
   (login_user st email' password clock).1 = st) ∧
  ((login_user st email' password clock).1 ≠ st ↔
   ∃ i user, UserLogin email' password = true ∧
             get_by_email st email' = Some (i, user) ∧
             email_verified user = true ∧ is_locked user = false ∧
             verify_password password (hashed_password user) = false).
Proof.
  intros Hfail. split.
  { intros Hrej. by rewrite login_user_rejected. }
  split.
  - unfold login_user in *.
    destruct (UserLogin email' password); simpl in *; [|done].
    destruct (get_by_email st email') as [[i user]|]; simpl in *; [|done].
    destruct (email_verified user) eqn:Hver; simpl in *; [|done].
    destruct (is_locked user) eqn:Hlock; simpl in *; [done|].
    destruct (verify_password _ _) eqn:Hpw; simpl in *; [done|].
    intros _. by exists i, user.
  - intros (i & user & Hvalid & Hget & Hver & Hlock & Hpw).
    rewrite (login_user_wrong_password st email' password clock i user)
      by done.
    apply fetch_lookup in Hget as [Hi _].
    apply (write_changes st i user _ Hi). simpl.
    intros Heq%(f_equal failed_login_attempts). revert Heq.
    destruct (_ <=? _); simpl; lia.
Qed.

End Login.

(** ** Email verification *)

Section Verification.
Context {Co : Collaborators}.

(** C3: [verify_email_with_token] reports success exactly when the id is
    known and the supplied token is the stored one; a success marks the
    record verified, clears its token and makes its role AUTHENTICATED, so
    the same call repeated on the resulting table reports failure. *)
Theorem verify_email_with_token_spec (st : store) (user_id : Z)
    (token : string) :
  ((verify_email_with_token st user_id token).2 = true ↔
   ∃ i user, get_by_id st user_id = Some (i, user) ∧
             verification_token user = Some token) ∧
  ((verify_email_with_token st user_id token).2 = true →
   ∃ i user',
     (verify_email_with_token st user_id token).1 = <[i := user']> st ∧
     get_by_id (<[i := user']> st) user_id = Some (i, user') ∧
     email_verified user' = true ∧
     verification_token user' = None ∧
     role user' = AUTHENTICATED ∧
     (verify_email_with_token (<[i := user']> st) user_id token).2 = false).
Proof.
  unfold verify_email_with_token at 1 2 3.
  destruct (get_by_id st user_id) as [[i user]|] eqn:Hget; simpl.
  2: { split; [|done]. split; [done|]. by intros (? & ? & ? & _). }
  case_bool_decide as Htok; simpl.
  { split; [|done]. split; [done|]. intros (? & ? & [= <- <-] & ?). done. }
  split; [split; eauto|]. intros _.
  eexists i, _. split; [reflexivity|].
  pose proof (fetch_lookup _ _ _ _ Hget) as [_ Hid].
  assert (get_by_id
            (<[i := set_role AUTHENTICATED
                      (set_verification_token None
                         (set_email_verified true user))]> st) user_id
          = Some (i, set_role AUTHENTICATED
                       (set_verification_token None
                          (set_email_verified true user)))) as Hget'.
  { by eapply (fetch_after_write (λ u, id u = user_id)). }
  split; [exact Hget'|]. split_and!; [done..|].
  unfold verify_email_with_token. rewrite Hget'. done.
Qed.

End Verification.

(** ** Password reset *)

Lemma unique_emails_write (st : store) (i : nat) (u u' : User) :
  st !! i = Some u → email u' = email u →
  unique_emails st → unique_emails (<[i := u']> st).
Proof.
  unfold unique_emails. intros Hi Hmail Hnd.
  rewrite list_fmap_insert, list_insert_id; [done|].
  by rewrite list_lookup_fmap, Hi, Hmail.
Qed.

Section Reset.
Context {Co : Collaborators}.

(** The part of C5 about the reset itself: on a known id the call reports
    true and the stored record carries the hash of the new password, a zero
    counter and a cleared locked flag. *)
Lemma reset_password_effect (st : store) (user_id : Z)
    (new_password : string) (i : nat) (user : User) :
  get_by_id st user_id = Some (i, user) →
  ∃ user',
    reset_password st user_id new_password = (<[i := user']> st, true) ∧
    get_by_id (<[i := user']> st) user_id = Some (i, user') ∧
    email user' = email user ∧
    email_verified user' = email_verified user ∧
    hashed_password user' = hash_password new_password ∧
    failed_login_attempts user' = 0 ∧
    is_locked user' = false.
Proof.
  intros Hget. unfold reset_password. rewrite Hget.
  eexists. split; [reflexivity|]. split; [|done].
  pose proof (fetch_lookup _ _ _ _ Hget) as [_ Hid].
  by eapply (fetch_after_write (λ u, id u = user_id)).
Qed.

(** C5, amended: for every known id and every new password,
    [reset_password] reports true, stores the hash of the new password,
    zeroes the counter and clears the locked flag, whether or not the
    account is verified; if moreover the account is email-verified (the
    emails being unique, the email passing the login schema and the hasher
    verifying what it hashed), the next login with the account's email and
    the new password returns the record. *)
Theorem reset_password_then_login (st : store) (user_id : Z)
    (new_password : string) (clock : Z) (i : nat) (user : User) :
  get_by_id st user_id = Some (i, user) →
  ∃ user',
    reset_password st user_id new_password = (<[i := user']> st, true) ∧
    get_by_id (<[i := user']> st) user_id = Some (i, user') ∧
    hashed_password user' = hash_password new_password ∧
    failed_login_attempts user' = 0 ∧
    is_locked user' = false ∧
    (email_verified user = true →
     unique_emails st →
     UserLogin (email user) new_password = true →
     verify_password new_password (hash_password new_password) = true →
     ∃ session,
       (login_user (<[i := user']> st) (email user) new_password clock).2
         = Some session ∧
       email session = email user ∧ failed_login_attempts session = 0).
Proof.
  intros Hget.
  destruct (reset_password_effect st user_id new_password i user Hget)
    as (user' & Hreset & Hget' & Hmail & Hver' & Hpw & Hc & Hlock).
  exists user'. split_and!; [done..|].
  intros Hver Hnd Hvalid Hhash.
  pose proof (fetch_lookup _ _ _ _ Hget) as [Hi _].
  pose proof (fetch_lookup _ _ _ _ Hget') as [Hi' _].
  assert (unique_emails (<[i := user']> st)) as Hnd'
    by eauto using unique_emails_write.
  destruct (get_by_email_stored _ user' Hnd') as [j Hj].
  { by eapply list_elem_of_lookup_2. }
  rewrite Hmail in Hj.
  rewrite (login_user_accepts (<[i := user']> st) (email user) new_password
             clock j user') by congruence.
  eexists. split; [reflexivity|]. simpl. by rewrite Hmail.
Qed.

End Reset.

(** ** The lockout invariant *)

Section Lockout.
Context {Co : Collaborators}.
Hypothesis max_positive : 1 ≤ max_login_attempts.

Lemma within_limit_fresh (u : User) :
  failed_login_attempts u = 0 → within_limit u.
Proof using max_positive. unfold within_limit. intros ->. lia. Qed.

Lemma create_within_limit (st : store) user_data inp :
  Forall within_limit st →
  Forall within_limit (create st user_data inp).1.
Proof using max_positive.
  intros Hst. unfold create.
  destruct (UserCreate user_data) as [v|]; [|done].
  destruct (get_by_email st (uc_email v)); [done|].
  destruct (count st None None None None None None None) as [user_count|];
    [|done].
  match goal with |- context [insert_row ?u st] => set (new_user := u) end.
  assert (failed_login_attempts new_user = 0) as Hc.
  { subst new_user. by destruct (bool_decide _). }
  unfold insert_row. destruct (existsb _ st); [done|].
  assert (Forall within_limit (st ++ [new_user])).
  { apply Forall_app. split; [done|].
    apply Forall_singleton. by apply within_limit_fresh. }
  by destruct (send_verification_email new_user).
Qed.

Lemma login_user_within_limit (st : store) email' password clock :
  Forall within_limit st →
  Forall within_limit (login_user st email' password clock).1.
Proof using max_positive.
  intros Hst. unfold login_user.
  destruct (UserLogin email' password); [|done]. simpl.
  destruct (get_by_email st email') as [[i user]|] eqn:Hget; [|done].
  apply fetch_lookup in Hget as [Hi _].
  pose proof (Forall_lookup_1 _ _ _ _ Hst Hi) as [Hle Hlt].
  destruct (email_verified user); [|done]. simpl.
  destruct (is_locked user) eqn:Hlock; [done|].
  destruct (verify_password _ _); simpl.
  - apply Forall_insert; [done|]. by apply within_limit_fresh.
  - apply Forall_insert; [done|].
    specialize (Hlt eq_refl).
    destruct (Z.leb_spec max_login_attempts (failed_login_attempts user + 1));
      unfold within_limit; simpl; rewrite ?Hlock; split; (done || lia).
Qed.

Lemma reset_password_within_limit (st : store) user_id new_password :
  Forall within_limit st →
  Forall within_limit (reset_password st user_id new_password).1.
Proof using max_positive.
  intros Hst. unfold reset_password.
  destruct (get_by_id st user_id) as [[i user]|]; [|done]. simpl.
  apply Forall_insert; [done|]. by apply within_limit_fresh.
Qed.

Lemma verify_email_within_limit (st : store) user_id token :
  Forall within_limit st →
  Forall within_limit (verify_email_with_token st user_id token).1.
Proof.
  intros Hst. unfold verify_email_with_token.
  destruct (get_by_id st user_id) as [[i user]|] eqn:Hget; [|done].
  apply fetch_lookup in Hget as [Hi _].
  case_bool_decide; [done|]. simpl.
  apply Forall_insert; [done|].
  exact (Forall_lookup_1 _ _ _ _ Hst Hi).
Qed.

Lemma unlock_within_limit (st : store) user_id :
  Forall within_limit st →
  Forall within_limit (unlock_user_account st user_id).1.
Proof using max_positive.
  intros Hst. unfold unlock_user_account.
  destruct (get_by_id st user_id) as [[i user]|]; [|done].
  destruct (is_locked user); [|done]. simpl.
  apply Forall_insert; [done|]. by apply within_limit_fresh.
Qed.

Lemma serve_within_limit (st : store) (r : Request) :
  Forall within_limit st → Forall within_limit (serve st r).
Proof using max_positive.
  destruct r; simpl;
    auto using create_within_limit, login_user_within_limit,
      reset_password_within_limit, verify_email_within_limit,
      unlock_within_limit.
Qed.

(** C8: starting from accounts whose failed-login counter is 0, after any
    sequence of registrations, logins, password resets, email verifications
    and unlocks, no account's counter exceeds the configured maximum,
    provided the maximum is at least 1. *)
Theorem counter_never_exceeds_max (st : store) (rs : list Request) :
  Forall (λ u, failed_login_attempts u = 0) st →
  Forall (λ u, failed_login_attempts u ≤ max_login_attempts)
    (serve_all st rs).
Proof using max_positive.
  intros Hfresh.
  assert (Forall within_limit st) as Hst.
  { eapply list.Forall_impl; [exact Hfresh|]. apply within_limit_fresh. }
  clear Hfresh.
  assert (Forall within_limit (serve_all st rs)) as Hinv.
  { unfold serve_all. revert st Hst.
    induction rs as [|r rs IH]; intros st Hst; simpl; [done|].
    apply IH. by apply serve_within_limit. }
  eapply list.Forall_impl; [exact Hinv|]. by intros u [Hle _].
Qed.

End Lockout.

(** ** Registration *)

Section Registration.
Context {Co : Collaborators}.

Lemma selected_no_clause (q : Query) (st : store) :
  q_where q = [] → selected q st = Some st.
Proof.
  unfold selected. intros ->. simpl. f_equal.
  induction st as [|u st IH]; simpl; [done|]. by rewrite IH.
Qed.

(** [count] without filters is the number of rows. *)
Lemma count_all (st : store) :
  count st None None None None None None None = Some (Z.of_nat (length st)).
Proof.
  unfold count, execute. by rewrite selected_no_clause, drop_0.
Qed.

(** C2: a [create] that returns a record appends it to the table; on a
    table that had no rows the record is ADMIN, email-verified and without
    token; otherwise it is ANONYMOUS, unverified and carries the token the
    generator produced, which is non-empty as long as the generator never
    yields the empty text. *)
Theorem create_first_user_is_admin (st st' : store)
    (user_data : list (string * string)) (inp : CreateInput)
    (new_user : User) :
  (∀ r, generate_verification_token r ≠ "") →
  create st user_data inp = (st', Some new_user) →
  st' = (st ++ [new_user])%list ∧
  match st with
  | [] =>
      role new_user = ADMIN ∧ email_verified new_user = true ∧
      verification_token new_user = None
  | _ :: _ =>
      role new_user = ANONYMOUS ∧ email_verified new_user = false ∧
      ∃ token, verification_token new_user = Some token ∧ token ≠ ""
  end.
Proof.
  intros Htoken. unfold create. rewrite count_all.
  destruct (UserCreate user_data) as [v|]; [|done].
  destruct (get_by_email st (uc_email v)); [done|].
  unfold insert_row. destruct (existsb _ st); [done|].
  destruct (send_verification_email _); [|done].
  intros [= <- <-]. split; [done|].
  destruct st as [|u st]; simpl; [done|].
  split_and!; [done..|]. eauto.
Qed.

(** C6: a [create] whose validated email is the email of a stored record
    returns no record and leaves the table as it was. *)
Theorem create_duplicate_email (st : store)
    (user_data : list (string * string)) (inp : CreateInput)
    (validated_data : UserCreateData) (existing_user : User) :
  UserCreate user_data = Some validated_data →
  existing_user ∈ st →
  email existing_user = uc_email validated_data →
  create st user_data inp = (st, None).
Proof.
  intros Hvalid Hin Hmail. unfold create. rewrite Hvalid.
  destruct (get_by_email st (uc_email validated_data)) eqn:Hget; [done|].
  unfold get_by_email in Hget. rewrite fetch_None in Hget.
  by destruct (Hget existing_user Hin).
Qed.

End Registration.

(** ** Listing and counting *)

Lemma like_percent (pattern s : string) :
  like (String "%" pattern) s =
  like pattern s ||
  match s with
  | EmptyString => false
  | String _ s' => like (String "%" pattern) s'
  end.
Proof. by destruct s. Qed.

Lemma like_any (s : string) : like "%" s = true.
Proof.
  induction s as [|c s IH]; rewrite like_percent; [done|]. by rewrite IH.
Qed.

(** A character that is not special in a pattern matches itself only. *)
Lemma like_literal (c : ascii) (pattern s : string) :
  (Ascii.eqb c "%" || Ascii.eqb c "_" || Ascii.eqb c "\")%char = false →
  like (String c pattern) s =
  match s with
  | EmptyString => false
  | String c' s' => Ascii.eqb c c' && like pattern s'
  end.
Proof. destruct c as [[] [] [] [] [] [] [] []]; done. Qed.

Lemma like_prefix (value s : string) :
  wildcard_free value = true →
  like (value ++ "%") s = String.prefix value s.
Proof.
  revert s. induction value as [|c value IH]; intros s Hfree.
  - change ("" ++ "%") with "%". rewrite like_any. by destruct s.
  - unfold wildcard_free in Hfree. simpl in Hfree.
    apply andb_true_iff in Hfree as [Hc Hfree].
    apply negb_true_iff in Hc.
    change (String c value ++ "%") with (String c (value ++ "%")).
    rewrite like_literal by done. destruct s as [|c' s]; [done|].
    rewrite IH by done. simpl.
    destruct (ascii_dec c c') as [-> | Hne].
    + by rewrite Ascii.eqb_refl.
    + by apply Ascii.eqb_neq in Hne as ->.
Qed.

(** On a value without special characters the column operator is plain
    containment. *)
Lemma contains_literal (value s : string) :
  wildcard_free value = true → contains value s = occurs_in value s.
Proof.
  intros Hfree. unfold contains.
  change ("%" ++ value ++ "%") with (String "%" (value ++ "%")).
  induction s as [|c s IH]; rewrite like_percent, like_prefix by done.
  - done.
  - by rewrite IH.
Qed.

Lemma cell_contains_literal (cell : option string) (value : string) :
  wildcard_free value = true →
  cell_contains cell value = true →
  ∃ s, cell = Some s ∧ occurs_in value s = true.
Proof.
  intros Hfree. destruct cell as [s|]; simpl; [|done].
  rewrite contains_literal by done. eauto.
Qed.

Lemma if_text_where (value : option string) (c : string → Clause)
    (q : Query) :
  if_text value (λ v, where_ (c v)) q =
  mkQuery (q_where q ++ text_clause value c) (q_offset q) (q_limit q).
Proof.
  destruct q, value as [[|]|]; simpl; by rewrite ?app_nil_r.
Qed.

Lemma if_date_where (value : option Z) (c : Z → Clause) (q : Query) :
  if_date value (λ d, where_ (c d)) q =
  mkQuery (q_where q ++ date_clause value c) (q_offset q) (q_limit q).
Proof. destruct q, value; simpl; by rewrite ?app_nil_r. Qed.

Lemma text_clause_no_text (value : option string) (c : string → Clause) :
  no_text value = true → text_clause value c = [].
Proof. by destruct value as [[|]|]. Qed.

Lemma text_clause_accepted (value : option string)
    (f : string → User → bool) :
  existsb refused (text_clause value (λ v, Some (f v))) = false.
Proof. by destruct value as [[|]|]. Qed.

Lemma date_clause_accepted (value : option Z) (f : Z → User → bool) :
  existsb refused (date_clause value (λ d, Some (f d))) = false.
Proof. by destruct value. Qed.

(** ** Nicknames *)

Module nickname_facts.
Import nickname_gen.

Lemma choice_elem (r : nat) (seq : list string) :
  seq ≠ [] → choice r seq ∈ seq.
Proof.
  intros Hne. unfold choice. apply list_elem_of_In, nth_In.
  apply Nat.mod_upper_bound. by destruct seq.
Qed.

Lemma hex_digit_lower (d : Z) : is_lower_hex (hex_digit d) = true.
Proof.
  destruct d as [|p|p]; [done| |done].
  do 4 (destruct p as [p|p|]; try done).
Qed.

Lemma hex_digits_length (k : nat) (n : Z) (acc : string) :
  String.length (hex_digits k n acc) = (k + String.length acc)%nat.
Proof.
  revert n acc. induction k as [|k IH]; intros n acc; simpl; [done|].
  rewrite IH. simpl. lia.
Qed.

Lemma hex_digits_lower (k : nat) (n : Z) (acc : string) :
  string_forall is_lower_hex acc = true →
  string_forall is_lower_hex (hex_digits k n acc) = true.
Proof.
  revert n acc. induction k as [|k IH]; intros n acc Hacc; simpl; [done|].
  apply IH. simpl. by rewrite hex_digit_lower.
Qed.

(** The slice [s[:m]]. *)
Lemma slice_length (m : nat) (s : string) :
  (m ≤ String.length s)%nat → String.length (substring 0 m s) = m.
Proof.
  revert s. induction m as [|m IH]; intros s Hm.
  - by destruct s.
  - destruct s as [|c s]; simpl in *; [lia|]. rewrite IH; lia.
Qed.

Lemma slice_forall (p : ascii → bool) (m : nat) (s : string) :
  string_forall p s = true → string_forall p (substring 0 m s) = true.
Proof.
  revert s. induction m as [|m IH]; intros s Hs.
  - by destruct s.
  - destruct s as [|c s]; simpl in *; [done|].
    apply andb_true_iff in Hs as [-> Hs]. simpl. by apply IH.
Qed.

(** C10: whatever the random draws, the nickname is
    [adjective ++ "_" ++ animal ++ "_" ++ suffix] with the adjective among
    the five adjectives, the animal among the five animals and the suffix
    made of exactly six characters, each in [0-9a-f]; it is never the empty
    text. *)
Theorem generate_nickname_shape (d : Draws) :
  ∃ adjective animal suffix,
    generate_nickname d = adjective ++ "_" ++ animal ++ "_" ++ suffix ∧
    adjective ∈ adjectives ∧
    animal ∈ animals ∧
    String.length suffix = 6%nat ∧
    string_forall is_lower_hex suffix = true ∧
    generate_nickname d ≠ "".
Proof.
  exists (choice (adjective_draw d) adjectives),
    (choice (animal_draw d) animals),
    (substring 0 6 (hex (uuid4 (uuid_draw d)))).
  split_and!.
  - done.
  - by apply choice_elem.
  - by apply choice_elem.
  - apply slice_length. unfold hex. rewrite hex_digits_length. simpl. lia.
  - apply slice_forall. unfold hex. by apply hex_digits_lower.
  - unfold generate_nickname.
    pose proof (choice_elem (adjective_draw d) adjectives) as Hadj.
    destruct (choice (adjective_draw d) adjectives) eqn:Hc; [|done].
    exfalso. specialize (Hadj ltac:(done)).
    unfold adjectives in Hadj.
    rewrite !elem_of_cons, elem_of_nil in Hadj.
    destruct Hadj as [?|[?|[?|[?|[?|[]]]]]]; discriminate.
Qed.

End nickname_facts.

(** * Worked examples on the sample table *)

Section Examples.
#[local] Existing Instance Sample.collaborators.

(** A third wrong password for carol, whose counter is 2 under a maximum of
  3: the counter becomes 3 and the account locks. *)
Lemma login_user_counter_example :
UserLogin "carol@example.com" "bad" = true ∧
get_by_email Sample.users "carol@example.com" = Some (2%nat, Sample.carol) ∧
email_verified Sample.carol = true ∧
is_locked Sample.carol = false ∧
∃ user',
  login_user Sample.users "carol@example.com" "bad" 9 =
    (<[2%nat := user']> Sample.users,
     if verify_password "bad" (hashed_password Sample.carol)
     then Some user' else None) ∧
  get_by_email (<[2%nat := user']> Sample.users) "carol@example.com"
    = Some (2%nat, user') ∧
  if verify_password "bad" (hashed_password Sample.carol)
  then failed_login_attempts user' = 0 ∧ is_locked user' = false
  else failed_login_attempts user' = failed_login_attempts Sample.carol + 1 ∧
       (is_locked user' = true ↔
          max_login_attempts ≤ failed_login_attempts Sample.carol + 1) ∧
       (failed_login_attempts Sample.carol < max_login_attempts →
          (is_locked user' = true ↔
             failed_login_attempts Sample.carol + 1 = max_login_attempts)).
Proof.
split_and!; [reflexivity..|].
apply (login_user_counter Sample.users "carol@example.com" "bad" 9 2
         Sample.carol); reflexivity.
Defined.

(** Registering erin on the four-row table. *)
Lemma create_first_user_is_admin_example :
(∀ r, generate_verification_token r ≠ "") ∧
create Sample.users
  [("email", "erin@example.com"); ("password", "pw")] Sample.draws
  = ((Sample.users ++ [Sample.erin])%list, Some Sample.erin) ∧
((Sample.users ++ [Sample.erin])%list
   = (Sample.users ++ [Sample.erin])%list ∧
 role Sample.erin = ANONYMOUS ∧ email_verified Sample.erin = false ∧
 ∃ token, verification_token Sample.erin = Some token ∧ token ≠ "").
Proof.
assert (∀ r, generate_verification_token r ≠ "") as Htoken
  by (intros r; simpl; discriminate).
split; [exact Htoken|]. split; [vm_compute; reflexivity|].
apply (create_first_user_is_admin Sample.users
         (Sample.users ++ [Sample.erin])
         [("email", "erin@example.com"); ("password", "pw")] Sample.draws
         Sample.erin Htoken).
vm_compute; reflexivity.
Defined.

(** Bob verifies his email with his token; the token does not work twice. *)
Lemma verify_email_with_token_example :
(verify_email_with_token Sample.users 2 "tok-bob").2 = true ∧
∃ i user',
  (verify_email_with_token Sample.users 2 "tok-bob").1
    = <[i := user']> Sample.users ∧
  get_by_id (<[i := user']> Sample.users) 2 = Some (i, user') ∧
  email_verified user' = true ∧
  verification_token user' = None ∧
  role user' = AUTHENTICATED ∧
  (verify_email_with_token (<[i := user']> Sample.users) 2 "tok-bob").2
    = false.
Proof.
split; [reflexivity|].
apply (proj2 (verify_email_with_token_spec Sample.users 2 "tok-bob")).
reflexivity.
Defined.

(** Dave is locked: even his own password opens no session. *)
Lemma login_user_locked_or_unverified_example :
unique_emails Sample.users ∧ Sample.dave ∈ Sample.users ∧
(is_locked Sample.dave = true ∨ email_verified Sample.dave = false) ∧
(login_user Sample.users (email Sample.dave) "davepw" 9).2 = None.
Proof.
assert (unique_emails Sample.users) as Hnd by compute_done.
assert (Sample.dave ∈ Sample.users) as Hin by compute_done.
split_and!; [exact Hnd | exact Hin | left; reflexivity |].
apply (login_user_locked_or_unverified Sample.users Sample.dave "davepw" 9
         Hnd Hin).
left; reflexivity.
Defined.

(** C5 as stated fails on an unverified account: bob's id is known and the
  reset succeeds, the hasher verifies the new password, yet the login that
  follows with bob's email and the new password returns no session. *)
Lemma reset_password_login_unverified :
get_by_id Sample.users 2 = Some (1%nat, Sample.bob) ∧
(reset_password Sample.users 2 "newpw").2 = true ∧
verify_password "newpw" (hash_password "newpw") = true ∧
UserLogin (email Sample.bob) "newpw" = true ∧
(login_user (reset_password Sample.users 2 "newpw").1
   (email Sample.bob) "newpw" 9).2 = None.
Proof. split_and!; vm_compute; reflexivity. Qed.

(** Carol, who is verified, resets her password and logs in with it. *)
Lemma reset_password_then_login_example :
  get_by_id Sample.users 3 = Some (2%nat, Sample.carol) ∧
  ∃ user',
    reset_password Sample.users 3 "newpw"
      = (<[2%nat := user']> Sample.users, true) ∧
    get_by_id (<[2%nat := user']> Sample.users) 3 = Some (2%nat, user') ∧
    hashed_password user' = hash_password "newpw" ∧
    failed_login_attempts user' = 0 ∧
    is_locked user' = false ∧
    ∃ session,
      (login_user (<[2%nat := user']> Sample.users) (email Sample.carol)
         "newpw" 9).2 = Some session ∧
      email session = email Sample.carol ∧
      failed_login_attempts session = 0.
Proof.
  split; [reflexivity|].
  destruct (reset_password_then_login Sample.users 3 "newpw" 9 2 Sample.carol
              eq_refl)
    as (user' & Hreset & Hget & Hpw & Hc & Hlock & Hlogin).
  exists user'. split_and!; [exact Hreset|exact Hget|exact Hpw|exact Hc|
                             exact Hlock|].
  apply Hlogin; [reflexivity|compute_done|reflexivity|reflexivity].
Defined.

(** Registering with bob's email changes nothing. *)
Lemma create_duplicate_email_example :
UserCreate [("email", "bob@example.com"); ("password", "x")]
  = Some (mkUserCreateData "bob@example.com" "x" None None) ∧
Sample.bob ∈ Sample.users ∧
email Sample.bob = "bob@example.com" ∧
create Sample.users [("email", "bob@example.com"); ("password", "x")]
  Sample.draws = (Sample.users, None).
Proof.
assert (Sample.bob ∈ Sample.users) as Hin by compute_done.
split_and!; [reflexivity | exact Hin | reflexivity |].
apply (create_duplicate_email Sample.users
         [("email", "bob@example.com"); ("password", "x")] Sample.draws
         (mkUserCreateData "bob@example.com" "x" None None) Sample.bob);
  [reflexivity | exact Hin | reflexivity].
Defined.

(** C7 at a failing input: with the first-name filter "Al" and every other
    filter absent, [list_users] without truncation returns alice (her first
    name contains the text) while [count] returns 0 (no first name equals
    it), so the total differs from the number of rows listed. *)
Lemma count_differs_from_list_users :
  list_users Sample.users 0 10 (Some "Al") None None None None None
    = [Sample.alice] ∧
  count Sample.users None (Some "Al") None None None None None = Some 0 ∧
  count Sample.users None (Some "Al") None None None None None
    ≠ Some (Z.of_nat (length (list_users Sample.users 0 10 (Some "Al") None
                                None None None None))).
Proof. split_and!; [reflexivity..|]. vm_compute. discriminate. Qed.

(** Four wrong passwords and then the right one against alice. *)
Lemma counter_never_exceeds_max_example :
1 ≤ max_login_attempts ∧
Forall (λ u, failed_login_attempts u = 0) [Sample.alice; Sample.bob] ∧
Forall (λ u, failed_login_attempts u ≤ max_login_attempts)
  (serve_all [Sample.alice; Sample.bob]
     [Login "alice@example.com" "x" 1; Login "alice@example.com" "x" 2;
      Login "alice@example.com" "x" 3; Login "alice@example.com" "x" 4;
      Login "alice@example.com" "alicepw" 5]).
Proof.
assert (1 ≤ max_login_attempts) as Hmax by (simpl; lia).
assert (Forall (λ u, failed_login_attempts u = 0) [Sample.alice; Sample.bob])
  as Hfresh by (repeat constructor).
split_and!; [exact Hmax | exact Hfresh |].
exact (counter_never_exceeds_max Hmax [Sample.alice; Sample.bob] _ Hfresh).
Defined.

(** A wrong password for carol is the failing login that writes. *)
Lemma login_user_failure_writes_example :
(login_user Sample.users "carol@example.com" "bad" 9).2 = None ∧
((get_by_email Sample.users "carol@example.com" = None ∨
  ∃ i user, get_by_email Sample.users "carol@example.com" = Some (i, user) ∧
            (email_verified user = false ∨ is_locked user = true)) →
 (login_user Sample.users "carol@example.com" "bad" 9).1 = Sample.users) ∧
((login_user Sample.users "carol@example.com" "bad" 9).1 ≠ Sample.users ↔
 ∃ i user, UserLogin "carol@example.com" "bad" = true ∧
           get_by_email Sample.users "carol@example.com" = Some (i, user) ∧
           email_verified user = true ∧ is_locked user = false ∧
           verify_password "bad" (hashed_password user) = false).
Proof.
split; [reflexivity|].
apply (login_user_failure_writes Sample.users "carol@example.com" "bad" 9).
reflexivity.
Defined.

End Examples.

(** * Further properties of the service *)

(** ** Deleting an account *)

Section Deletion.
Context {Co : Collaborators}.

(** [delete] reports true exactly when some stored record has the id; a
    false report leaves the table as it was; a true report removes one row
    and keeps the others in order, and under the primary-key constraint no
    record with that id is left. *)
Theorem delete_removes_the_row (st : store) (user_id : Z) :
  ((delete st user_id).2 = true ↔ ∃ u, u ∈ st ∧ id u = user_id) ∧
  ((delete st user_id).2 = false → (delete st user_id).1 = st) ∧
  ((delete st user_id).2 = true →
   S (length (delete st user_id).1) = length st ∧
   (delete st user_id).1 `sublist_of` st ∧
   (unique_ids st → get_by_id (delete st user_id).1 user_id = None)).
Proof.
  unfold delete.
  destruct (get_by_id st user_id) as [[i user]|] eqn:Hget; simpl.
  - pose proof (fetch_lookup _ _ _ _ Hget) as [Hi Hid].
    split_and!; [|done|].
    + split; [|done]. intros _. exists user. split; [|done].
      by eapply list_elem_of_lookup_2.
    + intros _. split_and!.
      * rewrite length_delete by eauto. apply lookup_lt_Some in Hi. lia.
      * apply sublist_delete.
      * intros Hnd. apply fetch_None. intros x Hx Hidx.
        apply list_elem_of_lookup in Hx as [j Hj].
        assert ((id <$> st) !! i = Some user_id) as Hi'
          by (by rewrite list_lookup_fmap, Hi; simpl; rewrite Hid).
        destruct (decide (j < i)%nat) as [Hlt | Hge].
        -- rewrite list_lookup_delete_lt in Hj by done.
           assert (j = i); [|lia].
           eapply NoDup_lookup; [exact Hnd| |exact Hi'].
           by rewrite list_lookup_fmap, Hj; simpl; rewrite Hidx.
        -- rewrite list_lookup_delete_ge in Hj by lia.
           assert (S j = i); [|lia].
           eapply NoDup_lookup; [exact Hnd| |exact Hi'].
           by rewrite list_lookup_fmap, Hj; simpl; rewrite Hidx.
  - unfold get_by_id in Hget. rewrite fetch_None in Hget.
    split_and!; [|done|done].
    split; [done|]. intros (u & Hin & Hid). by destruct (Hget u Hin).
Qed.

End Deletion.

(** ** Locking and unlocking *)

Section Locking.
Context {Co : Collaborators}.

(** [unlock_user_account] reports true exactly when the id is known and the
    record is locked; a false report leaves the table as it was; a true
    report clears the flag and zeroes the counter of that record, so the
    same call repeated reports false and changes nothing. *)
Theorem unlock_user_account_spec (st : store) (user_id : Z) :
  ((unlock_user_account st user_id).2 = true ↔
   ∃ i user, get_by_id st user_id = Some (i, user) ∧ is_locked user = true) ∧
  ((unlock_user_account st user_id).2 = false →
   (unlock_user_account st user_id).1 = st) ∧
  ((unlock_user_account st user_id).2 = true →
   ∃ i user',
     (unlock_user_account st user_id).1 = <[i := user']> st ∧
     get_by_id (<[i := user']> st) user_id = Some (i, user') ∧
     is_locked user' = false ∧
     failed_login_attempts user' = 0 ∧
     unlock_user_account (<[i := user']> st) user_id
       = (<[i := user']> st, false)).
Proof.
  unfold unlock_user_account at 1 2 3 4 5.
  destruct (get_by_id st user_id) as [[i user]|] eqn:Hget; simpl.
  2: { split_and!; [|done..]. split; [done|]. by intros (? & ? & ? & _). }
  destruct (is_locked user) eqn:Hlock; simpl.
  2: { split_and!; [|done..]. split; [done|].
       intros (? & ? & [= <- <-] & ?). congruence. }
  split_and!; [split; eauto|done|]. intros _.
  pose proof (fetch_lookup _ _ _ _ Hget) as [_ Hid].
  assert (get_by_id
            (<[i := set_failed_login_attempts 0 (set_is_locked false user)]>
               st) user_id
          = Some (i, set_failed_login_attempts 0 (set_is_locked false user)))
    as Hget'.
  { by eapply (fetch_after_write (λ u, id u = user_id)). }
  eexists i, _. split; [reflexivity|]. split; [exact Hget'|].
  split_and!; [done..|].
  unfold unlock_user_account. by rewrite Hget'.
Qed.

Lemma is_account_locked_rejected (st : store) (email' password : string)
    (clock : Z) :
  is_account_locked st email' = true →
  login_user st email' password clock = (st, None).
Proof.
  unfold is_account_locked. intros Hlocked.
  apply login_user_rejected.
  destruct (get_by_email st email') as [[i user]|]; [|done].
  right. exists i, user. auto.
Qed.

(** An email that [is_account_locked] reports locked opens no session,
    whatever the password, and the attempt leaves the table untouched. *)
Theorem locked_account_rejects_login (st : store) (email' password : string)
    (clock : Z) :
  is_account_locked st email' = true →
  login_user st email' password clock = (st, None).
Proof. apply is_account_locked_rejected. Qed.

Lemma locked_attempts_rejected (st : store) (email' : string)
    (tries : list (string * Z)) :
  is_account_locked st email' = true →
  serve_all st (attempts email' tries) = st.
Proof.
  intros Hlocked. unfold serve_all, attempts.
  induction tries as [|t tries IH]; simpl; [done|].
  by rewrite is_account_locked_rejected.
Qed.

(** A run of wrong passwords against a verified, unlocked account whose
    counter [c] is below the maximum [N]: after [n] attempts the counter is
    [min (c + n) N], the stored password is unchanged, and the account is
    locked exactly when [c + n] has reached [N]. *)
Theorem wrong_passwords_lock (st : store) (email' : string)
    (tries : list (string * Z)) (i : nat) (user : User) :
  get_by_email st email' = Some (i, user) →
  email_verified user = true →
  is_locked user = false →
  failed_login_attempts user < max_login_attempts →
  Forall (λ t, UserLogin email' t.1 = true ∧
               verify_password t.1 (hashed_password user) = false) tries →
  ∃ user',
    get_by_email (serve_all st (attempts email' tries)) email'
      = Some (i, user') ∧
    failed_login_attempts user'
      = Z.min (failed_login_attempts user + Z.of_nat (length tries))
          max_login_attempts ∧
    hashed_password user' = hashed_password user ∧
    (is_account_locked (serve_all st (attempts email' tries)) email' = true ↔
     max_login_attempts
       ≤ failed_login_attempts user + Z.of_nat (length tries)).
Proof.
  revert st user.
  induction tries as [|t tries IH]; intros st user Hget Hver Hlock Hc Htries.
  - exists user. simpl. unfold is_account_locked. rewrite Hget, Hlock.
    split_and!; [done|lia|done|]. split; [done|lia].
  - apply list.Forall_cons in Htries as [[Hvalid Hpw] Htries].
    pose proof (fetch_lookup _ _ _ _ Hget) as [_ Hmail].
    change (serve_all st (attempts email' (t :: tries)))
      with (serve_all (login_user st email' t.1 t.2).1 (attempts email' tries)).
    rewrite (login_user_wrong_password st email' t.1 t.2 i user) by done.
    cbn [fst snd failed_login_attempts set_failed_login_attempts].
    set (user1 := set_failed_login_attempts (failed_login_attempts user + 1)
                    user).
    destruct (Z.leb_spec max_login_attempts (failed_login_attempts user + 1))
      as [Hle | Hlt].
    + assert (get_by_email (<[i := set_is_locked true user1]> st) email'
              = Some (i, set_is_locked true user1)) as Hget1.
      { by eapply (fetch_after_write (λ u, email u = email')). }
      rewrite locked_attempts_rejected
        by (by unfold is_account_locked; rewrite Hget1).
      exists (set_is_locked true user1).
      unfold is_account_locked. rewrite Hget1. simpl.
      split_and!; [done|lia|done|]. split; [lia|done].
    + assert (get_by_email (<[i := user1]> st) email' = Some (i, user1))
        as Hget1.
      { by eapply (fetch_after_write (λ u, email u = email')). }
      destruct (IH (<[i := user1]> st) user1 Hget1 Hver Hlock)
        as (user' & Hget' & Hc' & Hpw' & Hlocked'); [simpl; lia|done|].
      exists user'. simpl in Hc', Hlocked'. simpl length.
      split_and!; [done|lia|done|]. rewrite Hlocked'. lia.
Qed.

(** A locked, verified account refuses its own password; after
    [unlock_user_account] the same login opens a session and the counter is
    0. *)
Theorem unlock_then_login (st : store) (user_id : Z) (password : string)
    (clock : Z) (i : nat) (user : User) :
  unique_emails st →
  get_by_id st user_id = Some (i, user) →
  is_locked user = true →
  email_verified user = true →
  UserLogin (email user) password = true →
  verify_password password (hashed_password user) = true →
  login_user st (email user) password clock = (st, None) ∧
  ∃ session,
    (login_user (unlock_user_account st user_id).1 (email user) password
       clock).2 = Some session ∧
    email session = email user ∧ failed_login_attempts session = 0.
Proof.
  intros Hnd Hget Hlock Hver Hvalid Hpw.
  pose proof (fetch_lookup _ _ _ _ Hget) as [Hi Hid].
  split.
  { destruct (get_by_email_stored st user Hnd) as [j Hj].
    { by eapply list_elem_of_lookup_2. }
    apply login_user_rejected. right. exists j, user. auto. }
  unfold unlock_user_account. rewrite Hget, Hlock. simpl.
  set (user' := set_failed_login_attempts 0 (set_is_locked false user)).
  assert (unique_emails (<[i := user']> st)) as Hnd'
    by (by eapply unique_emails_write).
  destruct (get_by_email_stored _ user' Hnd') as [j Hj].
  { eapply list_elem_of_lookup_2, list_lookup_insert_eq.
    by eapply lookup_lt_Some. }
  change (email user') with (email user) in Hj.
  rewrite (login_user_accepts (<[i := user']> st) (email user) password
             clock j user') by done.
  eexists. by split.
Qed.

End Locking.

(** ** Registration, continued *)

Lemma insert_row_Some (u : User) (st st' : store) :
  insert_row u st = Some st' →
  st' = (st ++ [u])%list ∧
  ∀ x, x ∈ st →
    id x ≠ id u ∧ email x ≠ email u ∧ nickname x ≠ nickname u.
Proof.
  unfold insert_row. destruct (existsb _ st) eqn:Hex; [done|].
  intros [= <-]. split; [done|]. intros x Hx.
  assert (existsb
            (λ x, bool_decide (id x = id u) || bool_decide (email x = email u)
                  || bool_decide (nickname x = nickname u)) st = true
          → False) as Hno by (rewrite Hex; done).
  split_and!; intros Heq; apply Hno, existsb_exists; exists x;
    (split; [by apply list_elem_of_In|]);
    rewrite !orb_true_iff, !bool_decide_eq_true; auto.
Qed.

Lemma fetch_appended (P : User → Prop) `{!∀ u, Decision (P u)}
    (st : store) (u : User) :
  (∀ x, x ∈ st → ¬ P x) → P u →
  _fetch_user P (st ++ [u]) = Some (length st, u).
Proof.
  intros Hno Hu. unfold _fetch_user.
  rewrite list_find_app_r by (by apply list_find_None, list.Forall_forall).
  simpl. by rewrite decide_True.
Qed.

Section RegistrationFlow.
Context {Co : Collaborators}.

Lemma create_returns_appended (st st' : store)
    (user_data : list (string * string)) (inp : CreateInput)
    (new_user : User) :
  create st user_data inp = (st', Some new_user) →
  st' = (st ++ [new_user])%list ∧ (create st user_data inp).1 ≠ st.
Proof.
  intros Hcreate. rewrite Hcreate. revert Hcreate.
  unfold create. rewrite count_all.
  destruct (UserCreate user_data); [|done].
  destruct (get_by_email _ _); [done|].
  unfold insert_row. destruct (existsb _ st); [done|].
  destruct (send_verification_email _); [|done].
  intros [= <- <-]. split; [done|]. simpl. intros Heq.
  apply (f_equal length) in Heq. rewrite length_app in Heq.
  simpl in Heq. lia.
Qed.

(** What a [create] that changes the table has done. *)
Lemma create_appends (st : store) (user_data : list (string * string))
    (inp : CreateInput) :
  (create st user_data inp).1 ≠ st →
  ∃ v new_user,
    UserCreate user_data = Some v ∧
    (∀ x, x ∈ st → email x ≠ uc_email v) ∧
    (∀ x, x ∈ st → id x ≠ new_id inp) ∧
    (∀ x, x ∈ st →
       nickname x ≠ nickname_gen.generate_nickname (nickname_draws inp)) ∧
    create st user_data inp =
      ((st ++ [new_user])%list,
       if send_verification_email new_user then Some new_user else None) ∧
    identity new_user =
      (new_id inp, uc_email v,
       nickname_gen.generate_nickname (nickname_draws inp), now inp) ∧
    hashed_password new_user = hash_password (uc_password v) ∧
    failed_login_attempts new_user = 0 ∧
    is_locked new_user = false ∧
    match st with
    | [] =>
        role new_user = ADMIN ∧ email_verified new_user = true ∧
        verification_token new_user = None
    | _ :: _ =>
        role new_user = ANONYMOUS ∧ email_verified new_user = false ∧
        verification_token new_user
          = Some (generate_verification_token (token_draw inp))
    end.
Proof.
  unfold create. rewrite count_all.
  destruct (UserCreate user_data) as [v|]; [|done].
  destruct (get_by_email st (uc_email v)) eqn:Hget; [done|].
  unfold get_by_email in Hget. rewrite fetch_None in Hget.
  match goal with |- context [insert_row ?u st] => set (new_user := u) end.
  destruct (insert_row new_user st) as [st'|] eqn:Hins; [|done].
  apply insert_row_Some in Hins as [-> Hfresh]. intros _.
  assert (identity new_user =
            (new_id inp, uc_email v,
             nickname_gen.generate_nickname (nickname_draws inp), now inp))
    as Hident by (subst new_user; by destruct (bool_decide _)).
  injection Hident as Hid Hmail Hnick _.
  exists v, new_user. split_and!; [done|done| | | | |..].
  - intros x Hx. rewrite <- Hid. by apply Hfresh.
  - intros x Hx. rewrite <- Hnick. by apply Hfresh.
  - by destruct (send_verification_email new_user).
  - subst new_user; by destruct (bool_decide _).
  - subst new_user; by destruct (bool_decide _).
  - subst new_user; by destruct (bool_decide _).
  - subst new_user; by destruct (bool_decide _).
  - subst new_user. by destruct st.
Qed.

Lemma create_returns_found (st st' : store)
    (user_data : list (string * string)) (inp : CreateInput)
    (new_user : User) :
  create st user_data inp = (st', Some new_user) →
  get_by_email st' (email new_user) = Some (length st, new_user) ∧
  get_by_id st' (id new_user) = Some (length st, new_user) ∧
  get_by_nickname st' (nickname new_user) = Some (length st, new_user) ∧
  nickname new_user = nickname_gen.generate_nickname (nickname_draws inp) ∧
  failed_login_attempts new_user = 0 ∧
  is_locked new_user = false ∧
  ∃ v, UserCreate user_data = Some v ∧
       email new_user = uc_email v ∧
       hashed_password new_user = hash_password (uc_password v).
Proof.
  intros Hcreate.
  destruct (create_appends st user_data inp)
    as (v & u & Hv & Hmail & Hid & Hnick & Hc & Hident & Hpw & Hcnt & Hlock
        & _).
  { by eapply create_returns_appended. }
  rewrite Hcreate in Hc.
  destruct (send_verification_email u); [|done].
  injection Hc as -> <-.
  injection Hident as Hid' Hmail' Hnick' _.
  split_and!; [| | |done..|by exists v].
  - apply (fetch_appended (λ x, email x = email new_user)); [|done].
    rewrite Hmail'. exact Hmail.
  - apply (fetch_appended (λ x, id x = id new_user)); [|done].
    rewrite Hid'. exact Hid.
  - apply (fetch_appended (λ x, nickname x = nickname new_user)); [|done].
    rewrite Hnick'. exact Hnick.
Qed.

(** The record a [create] returns is the last row of the table and the
    three lookups find it there: by its email, by its id and by its
    nickname.  It carries the validated email, the hash of the submitted
    password, the generated nickname, a zero counter and no lock. *)
Theorem create_then_lookup (st st' : store)
    (user_data : list (string * string)) (inp : CreateInput)
    (new_user : User) :
  create st user_data inp = (st', Some new_user) →
  get_by_email st' (email new_user) = Some (length st, new_user) ∧
  get_by_id st' (id new_user) = Some (length st, new_user) ∧
  get_by_nickname st' (nickname new_user) = Some (length st, new_user) ∧
  nickname new_user = nickname_gen.generate_nickname (nickname_draws inp) ∧
  failed_login_attempts new_user = 0 ∧
  is_locked new_user = false ∧
  ∃ v, UserCreate user_data = Some v ∧
       email new_user = uc_email v ∧
       hashed_password new_user = hash_password (uc_password v).
Proof. apply create_returns_found. Qed.

(** When [create] returns no record and yet the table has changed, the
    email sender is what failed: the new row is stored all the same, and
    registering the same data again is refused as a duplicate, whatever the
    draws. *)
Theorem create_sender_failure (st : store)
    (user_data : list (string * string)) (inp : CreateInput) :
  (create st user_data inp).2 = None →
  (create st user_data inp).1 ≠ st →
  ∃ v new_user,
    UserCreate user_data = Some v ∧
    email new_user = uc_email v ∧
    send_verification_email new_user = false ∧
    (create st user_data inp).1 = (st ++ [new_user])%list ∧
    ∀ inp', create (st ++ [new_user]) user_data inp'
            = ((st ++ [new_user])%list, None).
Proof.
  intros Hnone Hchanged.
  destruct (create_appends st user_data inp Hchanged)
    as (v & u & Hv & _ & _ & _ & Hc & Hident & _).
  injection Hident as _ Hmail _ _.
  rewrite Hc in Hnone |- *. simpl in *.
  exists v, u. split_and!; [done..| |done|].
  - by destruct (send_verification_email u).
  - intros inp'. unfold create. rewrite Hv.
    destruct (get_by_email (st ++ [u]) (uc_email v)) eqn:Hget; [done|].
    unfold get_by_email in Hget. rewrite fetch_None in Hget.
    destruct (Hget u); [|done].
    apply elem_of_app. right. by apply list_elem_of_singleton.
Qed.

(** The first account of an empty table can log in at once with the
    password it registered, and its session is an ADMIN session. *)
Theorem first_user_can_login (st' : store)
    (user_data : list (string * string)) (inp : CreateInput)
    (new_user : User) (v : UserCreateData) (clock : Z) :
  create [] user_data inp = (st', Some new_user) →
  UserCreate user_data = Some v →
  UserLogin (uc_email v) (uc_password v) = true →
  verify_password (uc_password v) (hash_password (uc_password v)) = true →
  ∃ session,
    (login_user st' (uc_email v) (uc_password v) clock).2 = Some session ∧
    id session = id new_user ∧ role session = ADMIN.
Proof.
  intros Hcreate Hv Hvalid Hhash.
  destruct (create_appends [] user_data inp)
    as (v' & u & Hv' & _ & _ & _ & Hc & Hident & Hpw & _ & Hlock & Hrole
        & Hver & _).
  { by eapply create_returns_appended. }
  rewrite Hv in Hv'. injection Hv' as <-.
  rewrite Hcreate in Hc. destruct (send_verification_email u); [|done].
  injection Hc as -> <-. injection Hident as _ Hmail _ _.
  rewrite (login_user_accepts [new_user] (uc_email v) (uc_password v) clock
             0 new_user); [|done| |done|done|by rewrite Hpw].
  - eexists. by split.
  - unfold get_by_email, _fetch_user. simpl. by rewrite decide_True.
Qed.

(** Every later account goes through verification: right after [create] its
    own password opens no session and the attempt changes nothing; the
    token it was issued verifies its id; from then on the same login opens
    an AUTHENTICATED session. *)
Theorem registration_lifecycle (st st' : store)
    (user_data : list (string * string)) (inp : CreateInput)
    (new_user : User) (v : UserCreateData) (clock : Z) :
  st ≠ [] →
  create st user_data inp = (st', Some new_user) →
  UserCreate user_data = Some v →
  UserLogin (uc_email v) (uc_password v) = true →
  verify_password (uc_password v) (hash_password (uc_password v)) = true →
  login_user st' (uc_email v) (uc_password v) clock = (st', None) ∧
  (verify_email_with_token st' (id new_user)
     (generate_verification_token (token_draw inp))).2 = true ∧
  ∃ session,
    (login_user
       (verify_email_with_token st' (id new_user)
          (generate_verification_token (token_draw inp))).1
       (uc_email v) (uc_password v) clock).2 = Some session ∧
    id session = id new_user ∧ role session = AUTHENTICATED.
Proof.
  intros Hst Hcreate Hv Hvalid Hhash.
  destruct (create_returns_found st st' user_data inp new_user Hcreate)
    as (Hbymail & Hbyid & _ & _ & Hcnt & Hlock & v' & Hv' & Hmail & Hpw).
  rewrite Hv in Hv'. injection Hv' as <-.
  destruct (create_appends st user_data inp)
    as (v' & u & Hv' & _ & _ & _ & Hc & _ & _ & _ & _ & Hstate).
  { rewrite Hcreate. simpl. intros ->.
    apply fetch_lookup in Hbymail as [Hlast _].
    apply lookup_lt_Some in Hlast. lia. }
  rewrite Hcreate in Hc. destruct (send_verification_email u); [|done].
  injection Hc as _ <-.
  destruct st as [|x st]; [done|]. destruct Hstate as (Hrole & Hver & Htok).
  rewrite Hmail in Hbymail.
  split_and!.
  - apply login_user_rejected. right. eexists _, _. split; [exact Hbymail|].
    by left.
  - unfold verify_email_with_token. rewrite Hbyid, Htok. simpl.
    by rewrite bool_decide_false by (intros Hne; by apply Hne).
  - unfold verify_email_with_token. rewrite Hbyid, Htok. simpl.
    rewrite bool_decide_false by (intros Hne; by apply Hne). simpl.
    set (user' := set_role AUTHENTICATED
                    (set_verification_token None
                       (set_email_verified true new_user))).
    assert (get_by_email (<[length (x :: st) := user']> st') (uc_email v)
            = Some (length (x :: st), user')) as Hget'.
    { by eapply (fetch_after_write (λ u, email u = uc_email v)). }
    rewrite (login_user_accepts _ (uc_email v) (uc_password v) clock
               (length (x :: st)) user');
      [|done|done|done|done|by simpl; rewrite Hpw].
    eexists. by split.
Qed.

End RegistrationFlow.

(** ** What every request preserves *)

Lemma write_identity (st : store) (i : nat) (u u' : User) :
  st !! i = Some u → identity u' = identity u →
  identity <$> <[i := u']> st = identity <$> st.
Proof.
  intros Hi Heq. rewrite list_fmap_insert, list_insert_id; [done|].
  by rewrite list_lookup_fmap, Hi, Heq.
Qed.

Lemma emails_of_identity (st : store) :
  email <$> st = (λ t, t.1.1.2) <$> (identity <$> st).
Proof. by rewrite <- list_fmap_compose. Qed.

Section Preservation.
Context {Co : Collaborators}.

(** Requests other than [Create] rewrite at most one row and keep its
    identifying columns; the role, the verified flag and the token change
    only when a pending token is consumed. *)
Lemma serve_rewrites (st : store) (r : Request) :
  (∀ user_data inp, r ≠ Create user_data inp) →
  serve st r = st ∨
  ∃ i u u', st !! i = Some u ∧ identity u' = identity u ∧
            serve st r = <[i := u']> st ∧
            ((role u' = role u ∧ email_verified u' = email_verified u ∧
              verification_token u' = verification_token u) ∨
             ((∃ token, verification_token u = Some token) ∧
              role u' = AUTHENTICATED ∧ email_verified u' = true ∧
              verification_token u' = None)).
Proof.
  intros Hr. destruct r as [d inp|e p c|uid p|uid t|uid]; simpl.
  - by destruct (Hr d inp).
  - unfold login_user. destruct (UserLogin e p); simpl; [|by left].
    destruct (get_by_email st e) as [[i u]|] eqn:Hget; [|by left].
    apply fetch_lookup in Hget as [Hi _].
    destruct (email_verified u); simpl; [|by left].
    destruct (is_locked u); simpl; [by left|].
    right. exists i, u.
    destruct (verify_password _ _); simpl;
      (eexists; split; [done|]; split; [|split; [reflexivity|]]);
      [done|by left| |].
    + by destruct (_ <=? _).
    + left. by destruct (_ <=? _).
  - unfold reset_password.
    destruct (get_by_id st uid) as [[i u]|] eqn:Hget; [|by left].
    apply fetch_lookup in Hget as [Hi _]. right.
    eexists i, u, _. split; [done|]. split; [|split; [reflexivity|]].
    + done.
    + by left.
  - unfold verify_email_with_token.
    destruct (get_by_id st uid) as [[i u]|] eqn:Hget; [|by left].
    apply fetch_lookup in Hget as [Hi _].
    case_bool_decide as Htok; [by left|]. right.
    eexists i, u, _. split; [done|]. split; [|split; [reflexivity|]].
    + done.
    + right. split; [by exists t|done].
  - unfold unlock_user_account.
    destruct (get_by_id st uid) as [[i u]|] eqn:Hget; [|by left].
    apply fetch_lookup in Hget as [Hi _].
    destruct (is_locked u); [|by left]. right.
    eexists i, u, _. split; [done|]. split; [|split; [reflexivity|]].
    + done.
    + by left.
Qed.

Lemma serve_identity (st : store) (r : Request) :
  identity <$> serve st r = identity <$> st ∨
  ∃ new_user,
    serve st r = (st ++ [new_user])%list ∧
    ∀ x, x ∈ st → email x ≠ email new_user.
Proof.
  destruct r as [d inp|e p c|uid p|uid t|uid].
  - destruct (decide ((create st d inp).1 = st)) as [Heq | Hne].
    { left. simpl. by rewrite Heq. }
    destruct (create_appends st d inp Hne)
      as (v & u & _ & Hmail & _ & _ & Hc & Hident & _).
    injection Hident as _ Hmail' _ _.
    right. exists u. simpl. rewrite Hc. simpl. split; [done|].
    by rewrite Hmail'.
  - left. destruct (serve_rewrites st (Login e p c)) as [-> | H]; [done..|].
    destruct H as (i & u & u' & ? & ? & -> & _). by eapply write_identity.
  - left.
    destruct (serve_rewrites st (ResetPassword uid p)) as [-> | H]; [done..|].
    destruct H as (i & u & u' & ? & ? & -> & _). by eapply write_identity.
  - left.
    destruct (serve_rewrites st (VerifyEmail uid t)) as [-> | H]; [done..|].
    destruct H as (i & u & u' & ? & ? & -> & _). by eapply write_identity.
  - left. destruct (serve_rewrites st (Unlock uid)) as [-> | H]; [done..|].
    destruct H as (i & u & u' & ? & ? & -> & _). by eapply write_identity.
Qed.

Lemma identity_prefix (st : store) (rs : list Request) :
  identity <$> st `prefix_of` identity <$> serve_all st rs.
Proof.
  unfold serve_all. revert st.
  induction rs as [|r rs IH]; intros st; simpl; [done|].
  etrans; [|apply IH].
  destruct (serve_identity st r) as [-> | (u & -> & _)]; [done|].
  rewrite fmap_app. by apply prefix_app_r.
Qed.

(** No sequence of registrations, logins, password resets, verifications
    and unlocks removes an account or changes the id, email, nickname or
    registration date of an account: every identity of the old table is
    still in the new one, as many times. *)
Theorem accounts_keep_identity (st : store) (rs : list Request) :
  identity <$> st ⊆+ identity <$> serve_all st rs.
Proof.
  destruct (identity_prefix st rs) as [tail ->].
  by apply submseteq_inserts_r.
Qed.

(** The uniqueness of emails is kept by every sequence of requests:
    [create] refuses an email that is already stored and nothing else
    writes the column. *)
Theorem emails_stay_unique (st : store) (rs : list Request) :
  unique_emails st → unique_emails (serve_all st rs).
Proof.
  unfold serve_all. revert st.
  induction rs as [|r rs IH]; intros st Hnd; simpl; [done|].
  apply IH. unfold unique_emails in *.
  destruct (serve_identity st r) as [Heq | (u & -> & Hfresh)].
  - by rewrite emails_of_identity, Heq, <- emails_of_identity.
  - rewrite fmap_app. apply list.NoDup_app. split_and!; [done| |].
    + intros e (x & -> & Hx)%list_elem_of_fmap.
      simpl. intros Heq%list_elem_of_singleton. by destruct (Hfresh x Hx).
    + apply NoDup_singleton.
Qed.

Lemma account_states_by_row (rs : list Request) (i : nat) (u : User) :
  serve_all [] rs !! i = Some u →
  first_admin i u ∨ pending i u ∨ verified i u.
Proof.
  assert (∀ rs st,
            (∀ i u, st !! i = Some u →
                    first_admin i u ∨ pending i u ∨ verified i u) →
            ∀ i u, serve_all st rs !! i = Some u →
                   first_admin i u ∨ pending i u ∨ verified i u) as Hinv.
  { clear. unfold serve_all.
    induction rs as [|r rs IH]; intros st Hst; simpl; [done|].
    apply IH. clear IH rs. intros i u.
    assert ((∃ d inp, r = Create d inp) ∨ (∀ d inp, r ≠ Create d inp))
      as [(d & inp & ->) | Hr] by (destruct r; eauto).
    - simpl.
      destruct (decide ((create st d inp).1 = st)) as [-> | Hne]; [by auto|].
      destruct (create_appends st d inp Hne)
        as (v & new & _ & _ & _ & _ & Hc & _ & _ & _ & _ & Hstate).
      rewrite Hc. simpl.
      intros [Hi | [Hlen Hi]]%lookup_app_Some; [by auto|].
      apply list_lookup_singleton_Some in Hi as [Hi <-].
      destruct st as [|x st].
      + left. unfold first_admin. rewrite Nat.sub_0_r in Hi. by split.
      + right. left. unfold pending. simpl in Hlen.
        destruct Hstate as (? & ? & ?).
        split_and!; [clear -Hlen; lia|done..|by eexists].
    - destruct (serve_rewrites st r Hr) as [-> | H]; [by auto|].
      destruct H as (j & w & w' & Hj & _ & -> & Hfields).
      intros [(-> & <- & _) | (Hne & Hi)]%list_lookup_insert_Some;
        [|by auto].
      specialize (Hst _ _ Hj).
      destruct Hfields as [(Hrole & Hver & Htok) | ((t & Htok) & Hnew)].
      + unfold first_admin, pending, verified in *.
        rewrite Hrole, Hver, Htok. exact Hst.
      + right. right. unfold first_admin, pending, verified in *.
        destruct Hst as [(_ & _ & _ & Hnone) | [(Hpos & _) | (_ & _ & _ & Hnone)]];
          [congruence| |congruence].
        by split. }
  intros Hi. eapply (Hinv rs []); [|exact Hi]. by intros ? ? ?.
Qed.

Lemma filter_none (p : User → bool) (st : store) :
  (∀ u, u ∈ st → p u = false) → List.filter p st = [].
Proof.
  induction st as [|u st IH]; intros Hst; simpl; [done|].
  rewrite (Hst u) by apply list_elem_of_here.
  apply IH. intros x Hx. apply Hst. by apply list_elem_of_further.
Qed.

(** Starting from the empty table, every account is at all times in one of
    three states: ADMIN, verified and without token; ANONYMOUS, unverified
    and holding a token; or AUTHENTICATED, verified and without token.  As
    soon as anyone has registered there is exactly one ADMIN account, and
    never more. *)
Theorem account_states_from_empty (rs : list Request) :
  (∀ u, u ∈ serve_all [] rs →
        admin_state u ∨ pending_state u ∨ verified_state u) ∧
  length (List.filter is_admin (serve_all [] rs))
    = Nat.min 1 (length (serve_all [] rs)).
Proof.
  pose proof (account_states_by_row rs) as Hrows.
  destruct (serve_all [] rs) as [|u0 st].
  { split; [by intros ? ?%elem_of_nil|done]. }
  split.
  - intros u (i & Hi)%list_elem_of_lookup.
    destruct (Hrows i u Hi)
      as [(_ & ?) | [(_ & ?) | (_ & ?)]]; unfold admin_state, pending_state,
      verified_state; auto.
  - simpl. unfold is_admin at 1.
    destruct (Hrows 0%nat u0 eq_refl)
      as [(_ & -> & _) | [(Hne & _) | (Hne & _)]]; [|done..].
    rewrite bool_decide_true by done. simpl. f_equal.
    rewrite filter_none; [done|].
    intros u (j & Hj)%list_elem_of_lookup. unfold is_admin.
    apply bool_decide_eq_false.
    destruct (Hrows (S j) u Hj)
      as [(Hz & _) | [(_ & -> & _) | (_ & -> & _)]]; done.
Qed.

End Preservation.

(** ** Listing and counting, continued *)

Lemma plain_text_wildcard_free (value : string) :
  plain_text value = true → wildcard_free value = true.
Proof.
  unfold plain_text, wildcard_free.
  induction value as [|c value IH]; simpl; [done|].
  intros [[_ ->]%andb_true_iff Hrest]%andb_true_iff. by rewrite IH.
Qed.

Lemma filter_sublist (p : User → bool) (st : store) :
  List.filter p st `sublist_of` st.
Proof.
  induction st as [|u st IH]; simpl; [done|].
  destruct (p u); by constructor.
Qed.

Lemma filter_passes (p : User → bool) (st : store) (u : User) :
  u ∈ List.filter p st ↔ u ∈ st ∧ p u = true.
Proof. by rewrite !list_elem_of_In, filter_In. Qed.

Lemma text_clause_passes (value : option string)
    (f : string → User → bool) (u : User) :
  passes (text_clause value (λ v, Some (f v))) u = true ↔
  ∀ v, value = Some v → v ≠ "" → f v u = true.
Proof.
  unfold passes. destruct value as [[|a v]|]; simpl.
  - split; [|done]. by intros _ v [= <-].
  - rewrite andb_true_r. split; [by intros ? ? [= <-]|]. intros H. by apply H.
  - by split.
Qed.

Lemma date_clause_passes (value : option Z) (f : Z → User → bool)
    (u : User) :
  passes (date_clause value (λ d, Some (f d))) u = true ↔
  ∀ d, value = Some d → f d u = true.
Proof.
  unfold passes. destruct value as [d|]; simpl.
  - rewrite andb_true_r. split; [by intros ? ? [= <-]|]. intros H. by apply H.
  - by split.
Qed.

Lemma passes_app (cs ds : list Clause) (u : User) :
  passes (cs ++ ds) u = passes cs u && passes ds u.
Proof. apply forallb_app. Qed.

Lemma filter_all (st : store) : List.filter (passes []) st = st.
Proof. induction st as [|u st IH]; simpl; [done|]. by rewrite IH. Qed.

Section ListingFlow.
Context {Co : Collaborators}.

Lemma if_text_search (search : option string) (q : Query) :
  if_text search (λ search query,
    match int search with
    | Some search_int =>
        where_ (or_ [ id_eq_int search_int;
                      Some (λ u, contains search (email u));
                      Some (λ u, contains search (role_name (role u)));
                      Some (λ u, cell_contains (first_name u) search);
                      Some (λ u, cell_contains (last_name u) search) ])
          query
    | None =>
        where_ (or_ [ Some (λ u, contains search (email u));
                      Some (λ u, contains search (role_name (role u)));
                      Some (λ u, cell_contains (first_name u) search);
                      Some (λ u, cell_contains (last_name u) search) ])
          query
    end) q
  = mkQuery (q_where q ++ text_clause search search_clause) (q_offset q)
      (q_limit q).
Proof.
  destruct q, search as [[|a s]|]; simpl; rewrite ?app_nil_r; [done| |done].
  unfold search_clause. by destruct (int (String a s)).
Qed.

Lemma list_clauses_accepted
    (first_name' last_name' email' role' status' : option string)
    (registration_date' : option Z) :
  existsb refused
    (list_clauses first_name' last_name' email' role' status'
       registration_date') = false.
Proof.
  unfold list_clauses.
  by rewrite !existsb_app, !text_clause_accepted, date_clause_accepted.
Qed.

(** The rows [list_users] returns and the number [count] returns, as plain
    list operations on the table. *)
Lemma list_users_rows (st : store) (skip limit' : nat)
    (first_name' last_name' email' role' status' : option string)
    (registration_date' : option Z) :
  list_users st skip limit' first_name' last_name' email' role' status'
    registration_date'
  = take limit'
      (drop skip
         (List.filter
            (passes (list_clauses first_name' last_name' email' role' status'
                       registration_date')) st)).
Proof.
  unfold list_users, _execute_query.
  rewrite !if_date_where, !if_text_where.
  unfold execute, selected. cbn [q_where q_offset q_limit limit offset
                                 select_User].
  rewrite <- !(assoc_L (++)). cbn [app].
  fold (list_clauses first_name' last_name' email' role' status'
          registration_date').
  by rewrite list_clauses_accepted.
Qed.

Lemma count_rows (st : store)
    (search first_name' last_name' email' role' status' : option string)
    (registration_date' : option Z) :
  count st search first_name' last_name' email' role' status'
    registration_date'
  = if existsb refused
         (count_clauses search first_name' last_name' email' role' status'
            registration_date')
    then None
    else Some
           (Z.of_nat
              (length
                 (List.filter
                    (passes (count_clauses search first_name' last_name'
                               email' role' status' registration_date'))
                    st))).
Proof.
  unfold count. rewrite !if_date_where, !if_text_where, if_text_search.
  unfold execute, selected. cbn [q_where q_offset q_limit select_User].
  rewrite <- !(assoc_L (++)). cbn [app].
  fold (count_clauses search first_name' last_name' email' role' status'
          registration_date').
  destruct (existsb refused _); [done|]. by rewrite drop_0.
Qed.

(** A page of [list_users] is made of stored rows, each at most as often as
    it is stored, and is no longer than the limit.  Every row on it meets
    the status filter by equality and the registration date as a lower
    bound, and for a name, email or role filter whose value is plain text
    (printable, without [%], [_] or backslash) the column contains that
    text. *)
Theorem list_users_page (st : store) (skip limit' : nat)
    (first_name' last_name' email' role' status' : option string)
    (registration_date' : option Z) :
  list_users st skip limit' first_name' last_name' email' role' status'
    registration_date' ⊆+ st ∧
  (length (list_users st skip limit' first_name' last_name' email' role'
             status' registration_date') ≤ limit')%nat ∧
  ∀ u, u ∈ list_users st skip limit' first_name' last_name' email' role'
             status' registration_date' →
    (∀ v, first_name' = Some v → v ≠ "" → plain_text v = true →
          ∃ s, first_name u = Some s ∧ occurs_in v s = true) ∧
    (∀ v, last_name' = Some v → v ≠ "" → plain_text v = true →
          ∃ s, last_name u = Some s ∧ occurs_in v s = true) ∧
    (∀ v, email' = Some v → v ≠ "" → plain_text v = true →
          occurs_in v (email u) = true) ∧
    (∀ v, role' = Some v → v ≠ "" → plain_text v = true →
          occurs_in v (role_name (role u)) = true) ∧
    (∀ v, status' = Some v → v ≠ "" → status u = Some v) ∧
    (∀ d, registration_date' = Some d → d ≤ registration_date u).
Proof.
  rewrite list_users_rows.
  assert (take limit'
            (drop skip
               (List.filter
                  (passes (list_clauses first_name' last_name' email' role'
                             status' registration_date')) st))
          `sublist_of`
          List.filter
            (passes (list_clauses first_name' last_name' email' role'
                       status' registration_date')) st) as Hsub.
  { etrans; [apply sublist_take|]. apply sublist_drop. }
  split_and!.
  - apply sublist_submseteq. etrans; [exact Hsub|]. apply filter_sublist.
  - rewrite length_take. lia.
  - intros u Hu.
    apply (elem_of_sublist _ _ _ Hu) in Hsub.
    apply filter_passes in Hsub as [_ Hpass].
    unfold list_clauses in Hpass.
    rewrite !passes_app, !andb_true_iff in Hpass.
    destruct Hpass as (Hf & Hl & He & Hr & Hs & Hd).
    rewrite text_clause_passes in Hf, Hl, He, Hr, Hs.
    rewrite date_clause_passes in Hd.
    split_and!.
    + intros v Hv Hne Hplain%plain_text_wildcard_free.
      by apply cell_contains_literal, Hf.
    + intros v Hv Hne Hplain%plain_text_wildcard_free.
      by apply cell_contains_literal, Hl.
    + intros v Hv Hne Hplain%plain_text_wildcard_free.
      rewrite <- contains_literal by done. by apply He.
    + intros v Hv Hne Hplain%plain_text_wildcard_free.
      rewrite <- contains_literal by done. by apply Hr.
    + intros v Hv Hne. specialize (Hs v Hv Hne). unfold cell_eq in Hs.
      destruct (status u); [|done]. by apply bool_decide_eq_true in Hs as ->.
    + intros d Hd'. specialize (Hd d Hd'). lia.
Qed.

(** Filters that are absent or empty do not filter: with no registration
    date and every text argument blank, [list_users] returns the page of the
    whole table and [count] returns the table size. *)
Theorem blank_filters_select_all (st : store) (skip limit' : nat)
    (search first_name' last_name' email' role' status' : option string) :
  no_text search = true → no_text first_name' = true →
  no_text last_name' = true → no_text email' = true →
  no_text role' = true → no_text status' = true →
  list_users st skip limit' first_name' last_name' email' role' status' None
    = take limit' (drop skip st) ∧
  count st search first_name' last_name' email' role' status' None
    = Some (Z.of_nat (length st)).
Proof.
  intros Hq Hf Hl He Hr Hs.
  rewrite list_users_rows, count_rows. unfold list_clauses, count_clauses.
  rewrite !(text_clause_no_text _ _ Hq), !(text_clause_no_text _ _ Hf),
    !(text_clause_no_text _ _ Hl), !(text_clause_no_text _ _ He),
    !(text_clause_no_text _ _ Hr), !(text_clause_no_text _ _ Hs).
  simpl. by rewrite filter_all.
Qed.

(** The [search] text of [count].  A text that parses as an integer is
    compared with the UUID key, which the store refuses: [count] then
    raises, whatever the other filters.  A plain text that does not parse as
    an integer, given alone, counts the rows whose email, role label, first
    name or last name contains it. *)
Theorem count_search (st : store) (search : string) :
  search ≠ "" →
  (int search ≠ None →
   ∀ first_name' last_name' email' role' status' registration_date',
     count st (Some search) first_name' last_name' email' role' status'
       registration_date' = None) ∧
  (int search = None → plain_text search = true →
   count st (Some search) None None None None None None
   = Some
       (Z.of_nat
          (length
             (List.filter
                (λ u, occurs_in search (email u)
                      || occurs_in search (role_name (role u))
                      || from_option (occurs_in search) false (first_name u)
                      || from_option (occurs_in search) false (last_name u))
                st)))).
Proof.
  intros Hne. destruct search as [|a s]; [done|]. split.
  - intros Hint first_name' last_name' email' role' status'
      registration_date'.
    rewrite count_rows. unfold count_clauses. simpl text_clause at 1.
    unfold search_clause. destruct (int (String a s)); [|done]. done.
  - intros Hint Hplain%plain_text_wildcard_free.
    rewrite count_rows. unfold count_clauses. simpl.
    unfold search_clause. rewrite Hint. simpl.
    do 3 f_equal. apply filter_ext. intros u.
    unfold passes. simpl. rewrite andb_true_r, orb_false_r, !orb_assoc.
    rewrite !contains_literal by done.
    unfold cell_contains.
    destruct (first_name u), (last_name u); simpl;
      by rewrite ?contains_literal by done.
Qed.

(** Without truncation (no skip, a limit of at least the table size)
    [list_users] misses no row: a stored row that meets every filter given
    (names, email and role by containing the plain text, status by equality,
    the registration date as a lower bound) is on the page. *)
Theorem list_users_complete (st : store) (limit' : nat)
    (first_name' last_name' email' role' status' : option string)
    (registration_date' : option Z) (u : User) :
  (length st ≤ limit')%nat →
  u ∈ st →
  meets_text first_name' (first_name u) →
  meets_text last_name' (last_name u) →
  meets_text email' (Some (email u)) →
  meets_text role' (Some (role_name (role u))) →
  (∀ v, status' = Some v → v ≠ "" → status u = Some v) →
  (∀ d, registration_date' = Some d → d ≤ registration_date u) →
  u ∈ list_users st 0 limit' first_name' last_name' email' role' status'
        registration_date'.
Proof.
  intros Hlimit Hin Hf Hl He Hr Hs Hd.
  rewrite list_users_rows, drop_0, take_ge.
  2: { etrans; [|exact Hlimit]. apply List.filter_length_le. }
  apply filter_passes. split; [done|].
  unfold list_clauses. rewrite !passes_app, !andb_true_iff.
  rewrite !text_clause_passes, date_clause_passes.
  split_and!.
  - intros v Hv Hne. destruct (Hf v Hv Hne) as (Hp & s & -> & Hocc).
    simpl. by rewrite contains_literal by by apply plain_text_wildcard_free.
  - intros v Hv Hne. destruct (Hl v Hv Hne) as (Hp & s & -> & Hocc).
    simpl. by rewrite contains_literal by by apply plain_text_wildcard_free.
  - intros v Hv Hne. destruct (He v Hv Hne) as (Hp & s & [= <-] & Hocc).
    by rewrite contains_literal by by apply plain_text_wildcard_free.
  - intros v Hv Hne. destruct (Hr v Hv Hne) as (Hp & s & [= <-] & Hocc).
    by rewrite contains_literal by by apply plain_text_wildcard_free.
  - intros v Hv Hne. rewrite (Hs v Hv Hne). simpl. by apply bool_decide_eq_true.
  - intros d Hd'. apply Z.leb_le. by apply Hd.
Qed.

(** The role filter of [count] is an equality with the enumeration: a text
    that is not one of the labels makes [count] raise, whatever the other
    filters, and a label given alone counts the rows of that role.
    [list_users] takes any role text. *)
Theorem count_role_filter (st : store) (role' : string) :
  role' ≠ "" →
  (role_of_name role' = None →
   ∀ search first_name' last_name' email' status' registration_date',
     count st search first_name' last_name' email' (Some role') status'
       registration_date' = None) ∧
  (∀ r, role_of_name role' = Some r →
        count st None None None None (Some role') None None
        = Some (Z.of_nat
                  (length (List.filter (λ u, bool_decide (role u = r)) st)))).
Proof.
  intros Hne. destruct role' as [|a s]; [done|]. split.
  - intros Hrole search first_name' last_name' email' status'
      registration_date'.
    rewrite count_rows. unfold count_clauses.
    rewrite !existsb_app. simpl text_clause at 5.
    unfold role_eq. rewrite Hrole. simpl.
    by rewrite !orb_true_r.
  - intros r Hrole. rewrite count_rows. unfold count_clauses. simpl.
    unfold role_eq. rewrite Hrole. simpl. do 3 f_equal.
    apply filter_ext. intros u. unfold passes. simpl.
    by rewrite andb_true_r.
Qed.

End ListingFlow.

(** ** Nicknames, continued *)

Module nickname_more.
Import nickname_gen.

Lemma string_forall_app (p : ascii → bool) (s t : string) :
  string_forall p (s ++ t) = string_forall p s && string_forall p t.
Proof.
  induction s as [|c s IH]; [done|].
  change (p c && string_forall p (s ++ t)
          = p c && string_forall p s && string_forall p t).
  by rewrite IH, andb_assoc.
Qed.

Lemma string_forall_impl (p q : ascii → bool) (s : string) :
  (∀ c, p c = true → q c = true) →
  string_forall p s = true → string_forall q s = true.
Proof.
  intros Hpq. induction s as [|c s IH]; simpl; [done|].
  intros [Hc Hs]%andb_true_iff. by rewrite (Hpq c Hc), IH.
Qed.

Lemma lower_hex_url_safe (c : ascii) :
  is_lower_hex c = true → is_url_safe c = true.
Proof.
  unfold is_lower_hex, is_url_safe.
  rewrite !orb_true_iff, !andb_true_iff, !Nat.leb_le. intros [[??]|[??]].
  - left. right. done.
  - left. left. split; [done|]. lia.
Qed.

Lemma string_app_assoc (s t w : string) : (s ++ t) ++ w = s ++ (t ++ w).
Proof.
  induction s as [|c s IH]; [done|].
  change (String c ((s ++ t) ++ w) = String c (s ++ (t ++ w))).
  by rewrite IH.
Qed.

Lemma string_app_length (s t : string) :
  String.length (s ++ t) = (String.length s + String.length t)%nat.
Proof.
  induction s as [|c s IH]; [done|].
  change (S (String.length (s ++ t))
          = S (String.length s + String.length t)).
  by rewrite IH.
Qed.

Lemma hex_digits_app (k : nat) (n : Z) (acc : string) :
  hex_digits k n acc = hex_digits k n "" ++ acc.
Proof.
  revert n acc. induction k as [|k IH]; intros n acc; simpl; [done|].
  rewrite (IH (n / 16) (String (hex_digit (n mod 16)) acc)).
  rewrite (IH (n / 16) (String (hex_digit (n mod 16)) "")).
  by rewrite string_app_assoc.
Qed.

Lemma hex_digits_split (a b : nat) (n : Z) (acc : string) :
  hex_digits (a + b) n acc
  = hex_digits a (n / 16 ^ Z.of_nat b) (hex_digits b n acc).
Proof.
  revert n acc. induction b as [|b IH]; intros n acc.
  - rewrite Nat.add_0_r. simpl. by rewrite Z.div_1_r.
  - rewrite Nat.add_succ_r. simpl hex_digits. rewrite IH.
    rewrite Z.div_div by lia. do 2 f_equal.
    rewrite Nat2Z.inj_succ, Z.pow_succ_r by lia. done.
Qed.

Lemma slice_app (s t : string) :
  substring 0 (String.length s) (s ++ t) = s.
Proof.
  induction s as [|c s IH]; [by destruct t|].
  change (String c (substring 0 (String.length s) (s ++ t)) = String c s).
  by rewrite IH.
Qed.

(** The variant and version fields lie below the 24 leading bits. *)
Lemma uuid4_leading_bits (r : Z) :
  uuid4 r / 2 ^ 104 = (r mod 2 ^ 128) / 2 ^ 104.
Proof.
  unfold uuid4. rewrite <- !Z.shiftr_div_pow2 by lia.
  rewrite !Z.shiftr_lor, !Z.shiftr_ldiff, !Z.shiftr_lor, !Z.shiftr_ldiff.
  change (Z.shiftr (Z.shiftl 4 76) 104) with 0.
  change (Z.shiftr (Z.shiftl 61440 64) 104) with 0.
  change (Z.shiftr (Z.shiftl 32768 48) 104) with 0.
  change (Z.shiftr (Z.shiftl 49152 48) 104) with 0.
  by rewrite !Z.lor_0_r, !Z.ldiff_0_r.
Qed.

(** The suffix of a nickname is the six hexadecimal digits of the 24 leading
    bits of the uuid draw: the nickname depends on the draw through those
    bits only, so a list of adjectives and animals of five words each leaves
    room for 25 * 2^24 nicknames. *)
Theorem nickname_suffix_bits (d : Draws) :
  generate_nickname d =
    choice (adjective_draw d) adjectives ++ "_" ++
    choice (animal_draw d) animals ++ "_" ++
    hex_digits 6 ((uuid_draw d mod 2 ^ 128) / 2 ^ 104) "".
Proof.
  unfold generate_nickname, hex. do 4 f_equal.
  change 32%nat with (6 + 26)%nat. rewrite hex_digits_split.
  rewrite hex_digits_app.
  change (16 ^ Z.of_nat 26) with (2 ^ 104). rewrite uuid4_leading_bits.
  pose proof (nickname_facts.hex_digits_length 6
                ((uuid_draw d mod 2 ^ 128) / 2 ^ 104) "") as Hlen.
  set (digits := hex_digits 6 ((uuid_draw d mod 2 ^ 128) / 2 ^ 104) "") in *.
  change (String.length digits = 6%nat) in Hlen.
  rewrite <- Hlen. apply slice_app.
Qed.

Lemma words_url_safe :
  Forall (λ s, string_forall is_url_safe s = true ∧
               (3 ≤ String.length s ≤ 6)%nat) adjectives ∧
  Forall (λ s, string_forall is_url_safe s = true ∧
               (3 ≤ String.length s ≤ 7)%nat) animals.
Proof. split; repeat constructor. Qed.

(** The docstring's promise: a nickname is URL-safe, made of lowercase
    letters, digits and underscores only; and it is between 14 and 21
    characters long. *)
Theorem generate_nickname_url_safe (d : Draws) :
  string_forall is_url_safe (generate_nickname d) = true ∧
  (14 ≤ String.length (generate_nickname d) ≤ 21)%nat.
Proof.
  destruct words_url_safe as [Hadj Hani].
  rewrite list.Forall_forall in Hadj, Hani.
  destruct (Hadj (choice (adjective_draw d) adjectives)) as [Ha1 Ha2].
  { by apply nickname_facts.choice_elem. }
  destruct (Hani (choice (animal_draw d) animals)) as [Hb1 Hb2].
  { by apply nickname_facts.choice_elem. }
  unfold generate_nickname.
  set (suffix := substring 0 6 (hex (uuid4 (uuid_draw d)))).
  assert (String.length suffix = 6%nat) as Hlen.
  { apply nickname_facts.slice_length. unfold hex.
    rewrite nickname_facts.hex_digits_length. simpl. lia. }
  assert (string_forall is_url_safe suffix = true) as Hsafe.
  { apply (string_forall_impl is_lower_hex); [apply lower_hex_url_safe|].
    apply nickname_facts.slice_forall. unfold hex.
    by apply nickname_facts.hex_digits_lower. }
  split.
  - rewrite !string_forall_app, Ha1, Hb1, Hsafe. done.
  - rewrite !string_app_length, Hlen. simpl. lia.
Qed.

End nickname_more.

(** * Further worked examples *)

Section FurtherExamples.
#[local] Existing Instance Sample.collaborators.

(** Deleting bob leaves the other three rows. *)
Lemma delete_removes_the_row_example :
  (delete Sample.users 2).2 = true ∧
  S (length (delete Sample.users 2).1) = length Sample.users ∧
  (delete Sample.users 2).1 `sublist_of` Sample.users ∧
  (unique_ids Sample.users → get_by_id (delete Sample.users 2).1 2 = None).
Proof.
  split; [reflexivity|].
  apply (proj2 (proj2 (delete_removes_the_row Sample.users 2))).
  reflexivity.
Defined.

(** Unlocking dave works once. *)
Lemma unlock_user_account_spec_example :
  (unlock_user_account Sample.users 4).2 = true ∧
  ∃ i user',
    (unlock_user_account Sample.users 4).1 = <[i := user']> Sample.users ∧
    get_by_id (<[i := user']> Sample.users) 4 = Some (i, user') ∧
    is_locked user' = false ∧
    failed_login_attempts user' = 0 ∧
    unlock_user_account (<[i := user']> Sample.users) 4
      = (<[i := user']> Sample.users, false).
Proof.
  split; [reflexivity|].
  apply (proj2 (proj2 (unlock_user_account_spec Sample.users 4))).
  reflexivity.
Defined.

Lemma locked_account_rejects_login_example :
  is_account_locked Sample.users "dave@example.com" = true ∧
  login_user Sample.users "dave@example.com" "davepw" 9
    = (Sample.users, None).
Proof.
  split; [reflexivity|].
  apply (locked_account_rejects_login Sample.users "dave@example.com"
           "davepw" 9).
  reflexivity.
Defined.

(** Four wrong passwords against alice under a maximum of 3. *)
Lemma wrong_passwords_lock_example :
  get_by_email Sample.users "alice@example.com" = Some (0%nat, Sample.alice) ∧
  email_verified Sample.alice = true ∧
  is_locked Sample.alice = false ∧
  failed_login_attempts Sample.alice < max_login_attempts ∧
  Forall (λ t, UserLogin "alice@example.com" t.1 = true ∧
               verify_password t.1 (hashed_password Sample.alice) = false)
    [("a", 1); ("b", 2); ("c", 3); ("d", 4)] ∧
  ∃ user',
    get_by_email
      (serve_all Sample.users
         (attempts "alice@example.com"
            [("a", 1); ("b", 2); ("c", 3); ("d", 4)]))
      "alice@example.com" = Some (0%nat, user') ∧
    failed_login_attempts user'
      = Z.min (failed_login_attempts Sample.alice + Z.of_nat 4)
          max_login_attempts ∧
    hashed_password user' = hashed_password Sample.alice ∧
    (is_account_locked
       (serve_all Sample.users
          (attempts "alice@example.com"
             [("a", 1); ("b", 2); ("c", 3); ("d", 4)]))
       "alice@example.com" = true ↔
     max_login_attempts ≤ failed_login_attempts Sample.alice + Z.of_nat 4).
Proof.
  assert (Forall (λ t, UserLogin "alice@example.com" t.1 = true ∧
                       verify_password t.1 (hashed_password Sample.alice)
                       = false)
            [("a", 1); ("b", 2); ("c", 3); ("d", 4)]) as Htries
    by (repeat constructor).
  split_and!; [reflexivity..|simpl; lia|exact Htries|].
  apply (wrong_passwords_lock Sample.users "alice@example.com"
           [("a", 1); ("b", 2); ("c", 3); ("d", 4)] 0 Sample.alice);
    [reflexivity..|simpl; lia|exact Htries].
Defined.

Lemma unlock_then_login_example :
  unique_emails Sample.users ∧
  get_by_id Sample.users 4 = Some (3%nat, Sample.dave) ∧
  is_locked Sample.dave = true ∧
  email_verified Sample.dave = true ∧
  UserLogin (email Sample.dave) "davepw" = true ∧
  verify_password "davepw" (hashed_password Sample.dave) = true ∧
  login_user Sample.users (email Sample.dave) "davepw" 9
    = (Sample.users, None) ∧
  ∃ session,
    (login_user (unlock_user_account Sample.users 4).1 (email Sample.dave)
       "davepw" 9).2 = Some session ∧
    email session = email Sample.dave ∧ failed_login_attempts session = 0.
Proof.
  assert (unique_emails Sample.users) as Hnd by compute_done.
  split_and!; [exact Hnd|reflexivity..|].
  apply (unlock_then_login Sample.users 4 "davepw" 9 3 Sample.dave Hnd);
    reflexivity.
Defined.

Lemma create_then_lookup_example :
  create Sample.users Sample.erin_data Sample.draws
    = ((Sample.users ++ [Sample.erin])%list, Some Sample.erin) ∧
  get_by_email (Sample.users ++ [Sample.erin]) (email Sample.erin)
    = Some (length Sample.users, Sample.erin) ∧
  get_by_id (Sample.users ++ [Sample.erin]) (id Sample.erin)
    = Some (length Sample.users, Sample.erin) ∧
  get_by_nickname (Sample.users ++ [Sample.erin]) (nickname Sample.erin)
    = Some (length Sample.users, Sample.erin) ∧
  nickname Sample.erin
    = nickname_gen.generate_nickname (nickname_draws Sample.draws) ∧
  failed_login_attempts Sample.erin = 0 ∧
  is_locked Sample.erin = false ∧
  ∃ v, UserCreate Sample.erin_data = Some v ∧
       email Sample.erin = uc_email v ∧
       hashed_password Sample.erin = hash_password (uc_password v).
Proof.
  split; [vm_compute; reflexivity|].
  apply (create_then_lookup Sample.users (Sample.users ++ [Sample.erin])
           Sample.erin_data Sample.draws Sample.erin).
  vm_compute; reflexivity.
Defined.

(** With a sender that raises, erin's row is stored but not returned, and a
    second attempt is a duplicate. *)
Lemma create_sender_failure_example :
  (create (Co := Sample.failing_sender) Sample.users Sample.erin_data
     Sample.draws).2 = None ∧
  (create (Co := Sample.failing_sender) Sample.users Sample.erin_data
     Sample.draws).1 ≠ Sample.users ∧
  ∃ v new_user,
    UserCreate (Collaborators := Sample.failing_sender) Sample.erin_data
      = Some v ∧
    email new_user = uc_email v ∧
    send_verification_email (Collaborators := Sample.failing_sender) new_user
      = false ∧
    (create (Co := Sample.failing_sender) Sample.users Sample.erin_data
       Sample.draws).1 = (Sample.users ++ [new_user])%list ∧
    ∀ inp', create (Co := Sample.failing_sender)
              (Sample.users ++ [new_user]) Sample.erin_data inp'
            = ((Sample.users ++ [new_user])%list, None).
Proof.
  assert ((create (Co := Sample.failing_sender) Sample.users Sample.erin_data
             Sample.draws).1 ≠ Sample.users) as Hchanged
    by (vm_compute; discriminate).
  split; [reflexivity|]. split; [exact Hchanged|].
  apply (create_sender_failure (Co := Sample.failing_sender) Sample.users
           Sample.erin_data Sample.draws); [reflexivity|exact Hchanged].
Defined.

Lemma first_user_can_login_example :
  create [] Sample.erin_data Sample.draws
    = ([Sample.erin_admin], Some Sample.erin_admin) ∧
  UserCreate Sample.erin_data
    = Some (mkUserCreateData "erin@example.com" "pw" None None) ∧
  UserLogin "erin@example.com" "pw" = true ∧
  verify_password "pw" (hash_password "pw") = true ∧
  ∃ session,
    (login_user [Sample.erin_admin] "erin@example.com" "pw" 9).2
      = Some session ∧
    id session = id Sample.erin_admin ∧ role session = ADMIN.
Proof.
  split_and!; [vm_compute; reflexivity|reflexivity..|].
  apply (first_user_can_login [Sample.erin_admin] Sample.erin_data
           Sample.draws Sample.erin_admin
           (mkUserCreateData "erin@example.com" "pw" None None) 9);
    [vm_compute; reflexivity|reflexivity..].
Defined.

Lemma registration_lifecycle_example :
  Sample.users ≠ [] ∧
  create Sample.users Sample.erin_data Sample.draws
    = ((Sample.users ++ [Sample.erin])%list, Some Sample.erin) ∧
  UserCreate Sample.erin_data
    = Some (mkUserCreateData "erin@example.com" "pw" None None) ∧
  UserLogin "erin@example.com" "pw" = true ∧
  verify_password "pw" (hash_password "pw") = true ∧
  login_user (Sample.users ++ [Sample.erin]) "erin@example.com" "pw" 9
    = ((Sample.users ++ [Sample.erin])%list, None) ∧
  (verify_email_with_token (Sample.users ++ [Sample.erin]) (id Sample.erin)
     (generate_verification_token (token_draw Sample.draws))).2 = true ∧
  ∃ session,
    (login_user
       (verify_email_with_token (Sample.users ++ [Sample.erin])
          (id Sample.erin)
          (generate_verification_token (token_draw Sample.draws))).1
       "erin@example.com" "pw" 9).2 = Some session ∧
    id session = id Sample.erin ∧ role session = AUTHENTICATED.
Proof.
  assert (Sample.users ≠ []) as Hne by discriminate.
  split_and!; [exact Hne|vm_compute; reflexivity|reflexivity..|].
  apply (registration_lifecycle Sample.users (Sample.users ++ [Sample.erin])
           Sample.erin_data Sample.draws Sample.erin
           (mkUserCreateData "erin@example.com" "pw" None None) 9);
    [exact Hne|vm_compute; reflexivity|reflexivity..].
Defined.

Lemma emails_stay_unique_example :
  unique_emails Sample.users ∧
  unique_emails
    (serve_all Sample.users
       [Create Sample.erin_data Sample.draws;
        Create Sample.erin_data Sample.fay_draws;
        Login "carol@example.com" "bad" 9; ResetPassword 2 "newpw"]).
Proof.
  assert (unique_emails Sample.users) as Hnd by compute_done.
  split; [exact Hnd|].
  exact (emails_stay_unique Sample.users _ Hnd).
Defined.

(** Erin registers first, fay second; fay verifies. *)
Lemma account_states_from_empty_example :
  Sample.fay_verified
    ∈ serve_all []
        [Create Sample.erin_data Sample.draws;
         Create Sample.fay_data Sample.fay_draws;
         VerifyEmail 6 "tok-0000000000000000000000000000004e"] ∧
  (admin_state Sample.fay_verified ∨ pending_state Sample.fay_verified ∨
   verified_state Sample.fay_verified) ∧
  length
    (List.filter is_admin
       (serve_all []
          [Create Sample.erin_data Sample.draws;
           Create Sample.fay_data Sample.fay_draws;
           VerifyEmail 6 "tok-0000000000000000000000000000004e"]))
  = Nat.min 1
      (length
         (serve_all []
            [Create Sample.erin_data Sample.draws;
             Create Sample.fay_data Sample.fay_draws;
             VerifyEmail 6 "tok-0000000000000000000000000000004e"])).
Proof.
  assert (Sample.fay_verified
            ∈ serve_all []
                [Create Sample.erin_data Sample.draws;
                 Create Sample.fay_data Sample.fay_draws;
                 VerifyEmail 6 "tok-0000000000000000000000000000004e"])
    as Hin by compute_done.
  destruct (account_states_from_empty
              [Create Sample.erin_data Sample.draws;
               Create Sample.fay_data Sample.fay_draws;
               VerifyEmail 6 "tok-0000000000000000000000000000004e"])
    as [Hstates Hadmins].
  exact (conj Hin (conj (Hstates _ Hin) Hadmins)).
Defined.

Lemma list_users_page_example :
  Sample.carol ∈ list_users Sample.users 0 2 None None (Some "example")
                   (Some "AUTH") None (Some 250) ∧
  occurs_in "example" (email Sample.carol) = true ∧
  occurs_in "AUTH" (role_name (role Sample.carol)) = true ∧
  250 ≤ registration_date Sample.carol.
Proof.
  assert (Sample.carol ∈ list_users Sample.users 0 2 None None
                           (Some "example") (Some "AUTH") None (Some 250))
    as Hin by compute_done.
  split; [exact Hin|].
  destruct (proj2 (proj2 (list_users_page Sample.users 0 2 None None
                            (Some "example") (Some "AUTH") None (Some 250)))
              Sample.carol Hin) as (_ & _ & He & Hr & _ & Hd).
  split_and!.
  - apply (He "example"); [reflexivity|discriminate|reflexivity].
  - apply (Hr "AUTH"); [reflexivity|discriminate|reflexivity].
  - by apply Hd.
Defined.

Lemma blank_filters_select_all_example :
  no_text (Some "") = true ∧ no_text None = true ∧
  list_users Sample.users 1 2 (Some "") None (Some "") None None None
    = take 2 (drop 1 Sample.users) ∧
  count Sample.users (Some "") (Some "") None (Some "") None None None
    = Some (Z.of_nat (length Sample.users)).
Proof.
  split_and!; [reflexivity..| |].
  - apply (blank_filters_select_all Sample.users 1 2 (Some "") (Some "") None
             (Some "") None None); reflexivity.
  - apply (blank_filters_select_all Sample.users 1 2 (Some "") (Some "") None
             (Some "") None None); reflexivity.
Defined.

(** The text "3" parses as an integer, so the count raises; the text
    "AUTH" does not, and occurs in the role labels of carol and dave. *)
Lemma count_search_example :
  "3" ≠ "" ∧ int "3" ≠ None ∧
  count Sample.users (Some "3") None None None None None None = None ∧
  "AUTH" ≠ "" ∧ int "AUTH" = None ∧ plain_text "AUTH" = true ∧
  count Sample.users (Some "AUTH") None None None None None None
  = Some
      (Z.of_nat
         (length
            (List.filter
               (λ u, occurs_in "AUTH" (email u)
                     || occurs_in "AUTH" (role_name (role u))
                     || from_option (occurs_in "AUTH") false (first_name u)
                     || from_option (occurs_in "AUTH") false (last_name u))
               Sample.users))).
Proof.
  assert ("3" ≠ "") as Hne3 by discriminate.
  assert (int "3" ≠ None) as Hint3 by discriminate.
  assert ("AUTH" ≠ "") as Hne by discriminate.
  split_and!; [exact Hne3|exact Hint3| |exact Hne|reflexivity..|].
  - exact (proj1 (count_search Sample.users "3" Hne3) Hint3 None None None
             None None None).
  - exact (proj2 (count_search Sample.users "AUTH" Hne) eq_refl eq_refl).
Defined.

(** Carol meets the email, role and date filters and is on the page. *)
Lemma list_users_complete_example :
  (length Sample.users ≤ 10)%nat ∧
  Sample.carol ∈ Sample.users ∧
  meets_text None (first_name Sample.carol) ∧
  meets_text None (last_name Sample.carol) ∧
  meets_text (Some "example") (Some (email Sample.carol)) ∧
  meets_text (Some "AUTH") (Some (role_name (role Sample.carol))) ∧
  (∀ d, Some 250 = Some d → d ≤ registration_date Sample.carol) ∧
  Sample.carol ∈ list_users Sample.users 0 10 None None (Some "example")
                   (Some "AUTH") None (Some 250).
Proof.
  assert (length Sample.users ≤ 10)%nat as Hlimit by (simpl; lia).
  assert (Sample.carol ∈ Sample.users) as Hin by compute_done.
  assert (∀ cell, meets_text None cell) as Hnone by (by intros cell v).
  assert (meets_text (Some "example") (Some (email Sample.carol))) as He.
  { intros v [= <-] _. split; [reflexivity|]. by eexists. }
  assert (meets_text (Some "AUTH") (Some (role_name (role Sample.carol))))
    as Hr.
  { intros v [= <-] _. split; [reflexivity|]. by eexists. }
  assert (∀ d, Some 250 = Some d → d ≤ registration_date Sample.carol) as Hd.
  { intros d [= <-]. simpl. lia. }
  split_and!; [exact Hlimit|exact Hin|apply Hnone|apply Hnone|exact He|
               exact Hr|exact Hd|].
  apply (list_users_complete Sample.users 10 None None (Some "example")
           (Some "AUTH") None (Some 250) Sample.carol Hlimit Hin
           (Hnone _) (Hnone _) He Hr); [|exact Hd].
  by intros v.
Defined.

(** "AUTH" is not a label; "AUTHENTICATED" is, and two rows carry it. *)
Lemma count_role_filter_example :
  "AUTH" ≠ "" ∧ role_of_name "AUTH" = None ∧
  count Sample.users None None None None (Some "AUTH") None None = None ∧
  "AUTHENTICATED" ≠ "" ∧
  role_of_name "AUTHENTICATED" = Some AUTHENTICATED ∧
  count Sample.users None None None None (Some "AUTHENTICATED") None None
  = Some (Z.of_nat
            (length
               (List.filter (λ u, bool_decide (role u = AUTHENTICATED))
                  Sample.users))).
Proof.
  assert ("AUTH" ≠ "") as Hne by discriminate.
  assert ("AUTHENTICATED" ≠ "") as Hne' by discriminate.
  split_and!; [exact Hne|reflexivity| |exact Hne'|reflexivity|].
  - exact (proj1 (count_role_filter Sample.users "AUTH" Hne) eq_refl None
             None None None None None).
  - exact (proj2 (count_role_filter Sample.users "AUTHENTICATED" Hne')
             AUTHENTICATED eq_refl).
Defined.

End FurtherExamples.
